(** * Docstring example coverage: a shallow embedding of
      [ansys/tools/example_coverage/example_coverage.py]

    The development follows the two functions of the module:
    [find_files] (the source finder) and [create_report] (the classifier
    and the statistics it prints).  Python lists are Rocq lists, Python
    [str] values are [string]s (the bytes of their UTF-8 form, compared
    bytewise, which is the code point order Python uses; where Python
    counts characters, the characters are counted), a [pathlib] path is
    a root and its parts, a Python [float] is a binary64 number, a
    raised exception is the [Raise] case of [result], and the
    accumulator lists that the loops of [create_report] append to are
    threaded explicitly through the steps of each loop. *)

From Stdlib Require Import List String Ascii Bool Arith Lia.
From Stdlib Require Import ZArith QArith.
From Stdlib Require Import Uint63 PrimFloat SpecFloat FloatOps.
From Stdlib Require Import Orders Sorting.Mergesort Sorting.Sorted Sorting.Permutation.
Import ListNotations.

Local Close Scope Q_scope.
Local Open Scope nat_scope.
Local Open Scope string_scope.
Local Open Scope list_scope.

(** ** The string methods the program calls *)

Module Py.

(** [s.startswith(p)] *)
Definition startswith (s p : string) : bool := String.prefix p s.

(** [s.endswith(suf)]: [s] is [suf], or the tail of [s] ends with [suf]. *)
Fixpoint endswith (s suf : string) : bool :=
  String.eqb s suf ||
  match s with
  | EmptyString => false
  | String _ s' => endswith s' suf
  end.

(** [sub in s] on strings: [sub] occurs in [s] at some position. *)
Fixpoint contains (sub s : string) : bool :=
  String.prefix sub s ||
  match s with
  | EmptyString => false
  | String _ s' => contains sub s'
  end.

(** [s.rfind(c)] for a one-character needle, as an option. *)
Fixpoint rfind (c : ascii) (s : string) : option nat :=
  match s with
  | EmptyString => None
  | String a s' =>
      match rfind c s' with
      | Some i => Some (S i)
      | None => if Ascii.eqb a c then Some 0 else None
      end
  end.

(** [s[i:]] *)
Definition slice_from (i : nat) (s : string) : string :=
  String.substring i (String.length s - i) s.

End Py.

(** ** The syntax tree, as far as the program inspects it

    [ast.parse] is the parser; the program looks at [tree.body], at the
    class of each node ([ast.FunctionDef], [ast.ClassDef]; every other
    statement class, [ast.AsyncFunctionDef] included, fails both
    [isinstance] tests), at [node.name], [node.decorator_list], at the
    body of a class, and at the value of [ast.get_docstring(node)], which
    is carried by the node here. *)

Inductive expr : Type :=
| Name (id : string)
| Attribute (value : expr) (attr : string)
| OtherExpr.

Record function_def : Type := mk_function_def
  { name : string;
    decorator_list : list expr;
    get_docstring : option string }.

#[warning="-register-all"]
Inductive stmt : Type :=
| FunctionDef (f : function_def)
| AsyncFunctionDef (f : function_def)
| ClassDef (class_name : string) (class_docstring : option string)
           (body : list stmt)
| OtherStmt.

(** A class definition node, unpacked. *)
Record class_def : Type := mk_class_def
  { cname : string;
    cdocstring : option string;
    cbody : list stmt }.

(** [(ast.get_docstring(node) is None) or ("Example" not in ast.get_docstring(node))] *)
Definition lacks_example (doc : option string) : bool :=
  match doc with
  | None => true
  | Some d => negb (Py.contains "Example" d)
  end.

(** [[node for node in body if isinstance(node, ast.FunctionDef)]] *)
Definition function_nodes (body : list stmt) : list function_def :=
  flat_map (fun node => match node with
                        | FunctionDef f => [f]
                        | _ => []
                        end) body.

(** [[node for node in tree.body if isinstance(node, ast.ClassDef)]] *)
Definition class_nodes (body : list stmt) : list class_def :=
  flat_map (fun node => match node with
                        | ClassDef n d b => [mk_class_def n d b]
                        | _ => []
                        end) body.

(** ** The three classification loops of [create_report]

    Each loop appends names to a [missing_...] and a [covered_...] list;
    a step takes the pair of lists before an iteration to the pair after
    it. *)

#[warning="-notation-for-abbreviation"]
Notation lists := (list string * list string)%type.

(** One iteration of [for function in function_definitions]. *)
Definition function_step (st : lists) (function : function_def) : lists :=
  let '(missing_functions, covered_functions) := st in
  if Py.startswith (name function) "_" then st
  else if lacks_example (get_docstring function)
       then (missing_functions ++ [name function], covered_functions)
       else (missing_functions, covered_functions ++ [name function]).

(** One iteration of [for class_def in class_definitions]: the methods of
    the class are added to [method_definitions], the class itself to one
    of the two lists. *)
Definition class_step (st : list function_def * lists) (class_def : class_def)
  : list function_def * lists :=
  let '(method_definitions, (missing_classes, covered_classes)) := st in
  let method_definitions := method_definitions ++ function_nodes (cbody class_def) in
  if lacks_example (cdocstring class_def)
  then (method_definitions, (missing_classes ++ [cname class_def], covered_classes))
  else (method_definitions, (missing_classes, covered_classes ++ [cname class_def])).

(** One iteration of [for decorator in method.decorator_list]; the state
    is the two lists and the flag [prop]. *)
Definition decorator_step (method : function_def) (st : lists * bool)
  (decorator : expr) : lists * bool :=
  let '((missing_methods, covered_methods), prop) := st in
  match decorator with
  | Name id =>
      if String.eqb id "property" then
        match get_docstring method with
        | None => ((missing_methods ++ [name method], covered_methods), true)
        | Some d =>
            if negb (Py.contains "Example" d)
            then ((missing_methods ++ [name method], covered_methods), true)
            else ((missing_methods, covered_methods ++ [name method]), true)
        end
      else st
  | Attribute _ attr =>
      if String.eqb attr "setter"
      then ((missing_methods, covered_methods ++ [name method]), true)
      else st
  | OtherExpr => st
  end.

(** The decorator loop of one method, started with [prop = False]. *)
Definition decorator_loop (method : function_def) (st : lists) : lists * bool :=
  fold_left (decorator_step method) (decorator_list method) (st, false).

(** One iteration of [for method in method_definitions]. *)
Definition method_step (st : lists) (method : function_def) : lists :=
  let '((missing_methods, covered_methods), prop) := decorator_loop method st in
  if prop then (missing_methods, covered_methods)
  else if Py.startswith (name method) "_" then (missing_methods, covered_methods)
  else if lacks_example (get_docstring method)
       then (missing_methods ++ [name method], covered_methods)
       else (missing_methods, covered_methods ++ [name method]).

Definition classify_functions (tree : list stmt) : lists :=
  fold_left function_step (function_nodes tree) ([], []).

Definition classify_classes (tree : list stmt) : list function_def * lists :=
  fold_left class_step (class_nodes tree) ([], ([], [])).

Definition method_definitions (tree : list stmt) : list function_def :=
  fst (classify_classes tree).

Definition classify_methods (tree : list stmt) : lists :=
  fold_left method_step (method_definitions tree) ([], []).

(** The two lists stored for a module:
    [all_methods_without_example[file_name]] and
    [all_methods_with_example[file_name]]. *)
Definition without_example (tree : list stmt) : list string :=
  (fst (classify_functions tree) ++ fst (snd (classify_classes tree)))
    ++ fst (classify_methods tree).

Definition with_example (tree : list stmt) : list string :=
  (snd (classify_functions tree) ++ snd (snd (classify_classes tree)))
    ++ snd (classify_methods tree).

(** ** Exceptions *)

(** The exceptions of the string operations. *)
Inductive str_error : Type :=
| ValueError
| IndexError.

Inductive exception : Type :=
| FileNotFoundError (message : string)
| SyntaxError (message : string)
| KeyError (key : string)
| StrError (e : str_error).

Inductive result (A : Type) : Type :=
| Return (a : A)
| Raise (e : exception).

Arguments Return {A} a.
Arguments Raise {A} e.

Definition bind {A B : Type} (r : result A) (k : A -> result B) : result B :=
  match r with
  | Return a => k a
  | Raise e => Raise e
  end.

Notation "x <- r ;; k" := (bind r (fun x => k))
  (at level 61, r at next level, right associativity).

(** ** The source finder

    The directory given to [find_files] is the list of its entries; an
    entry is a regular file or a directory with entries of its own. *)

#[warning="-register-all"]
Inductive entry : Type :=
| File (file : string)
| Dir (dir : string) (children : list entry).

Definition entry_name (e : entry) : string :=
  match e with
  | File n => n
  | Dir n _ => n
  end.

(** [os.listdir(directory_path)] *)
Definition os_listdir (entries : list entry) : list string :=
  map entry_name entries.

(** [os.path.join(a, b)] for two components, with ["/"] as separator. *)
Definition os_path_join (a b : string) : string :=
  if Py.startswith b "/" then b
  else if String.eqb a "" || Py.endswith a "/" then (a ++ b)%string
  else (a ++ "/" ++ b)%string.

(** [pathlib.Path(p).name]: the final component of the path. *)
Definition path_name (p : string) : string :=
  match Py.rfind "/"%char p with
  | Some i => Py.slice_from (S i) p
  | None => p
  end.

(** [pathlib.Path(p).suffix]: the final component from its last dot on,
    when that dot is neither its first nor its last character. *)
Definition path_suffix (p : string) : string :=
  let final := path_name p in
  match Py.rfind "."%char final with
  | Some i =>
      if ((0 <? i)%nat && (i <? String.length final - 1)%nat)%bool
      then Py.slice_from i final
      else ""
  | None => ""
  end.

(** [s.split(c)] for a one-character separator. *)
Fixpoint split_on (c : ascii) (s : string) : list string :=
  match s with
  | EmptyString => [EmptyString]
  | String a s' =>
      if Ascii.eqb a c then EmptyString :: split_on c s'
      else match split_on c s' with
           | [] => [String a EmptyString]
           | first :: others => String a first :: others
           end
  end.

(** [pathlib.Path(p)]: a path is kept as a root and its parts.  The root
    is ["/"] for a path that starts with a slash (["//"] when it starts
    with exactly two); the parts are the components between slashes,
    the empty ones and ["."] left out. *)
Definition path_root (p : string) : string :=
  if Py.startswith p "//" && negb (Py.startswith p "///") then "//"
  else if Py.startswith p "/" then "/"
  else "".

Definition path_parts (p : string) : list string :=
  filter (fun part => negb (String.eqb part "") && negb (String.eqb part "."))
    (split_on "/"%char p).

(** [str(path)]: the root, then the parts joined with slashes; ["."] for
    the path without root and parts. *)
Definition path_str (root : string) (parts : list string) : string :=
  match parts with
  | [] => if String.eqb root "" then "." else root
  | _ :: _ => (root ++ String.concat "/" parts)%string
  end.

(** The paths [pathlib.Path(directory_path).rglob('*.py')] yields below
    one entry, as [str] prints them: the entry itself when its name
    matches the pattern, be it a file or a directory, and the matches
    further down.  [parts] are the parts of the directory that holds the
    entry. *)
Fixpoint rglob_entry (root : string) (parts : list string) (e : entry) {struct e}
  : list string :=
  match e with
  | File n => if Py.endswith n ".py" then [path_str root (parts ++ [n])] else []
  | Dir n children =>
      (if Py.endswith n ".py" then [path_str root (parts ++ [n])] else [])
        ++ flat_map (rglob_entry root (parts ++ [n])) children
  end.

(** [[str(path) for path in pathlib.Path(directory_path).rglob('*.py')]] *)
Definition rglob_py (directory_path : string) (entries : list entry) : list string :=
  flat_map (rglob_entry (path_root directory_path) (path_parts directory_path)) entries.

(** [sorted] on a list of [str]: a stable merge sort by [<=]. *)
Module StrOrder <: TotalLeBool.
Definition t : Type := string.
Definition leb : t -> t -> bool := String.leb.
Lemma leb_total : forall s1 s2, leb s1 s2 = true \/ leb s2 s1 = true.
Proof. exact String.leb_total. Qed.
End StrOrder.

Module StrSort := Sort StrOrder.

Definition sorted (l : list string) : list string := StrSort.sort l.

(** The list [modules] of [find_files], before it is tested and sorted.
    In the second comprehension [file] ranges over the names of the
    entries, and [os.path.isfile] holds of the regular files among
    them. *)
Definition modules (directory_path : string) (entries : list entry)
  (recursive : bool) : list string :=
  if recursive then
    filter (fun path => negb (Py.endswith path "__init__.py"))
      (rglob_py directory_path entries)
  else
    flat_map
      (fun e =>
         match e with
         | File file =>
             if String.eqb (path_suffix (os_path_join directory_path file)) ".py"
                && negb (Py.endswith file "__init__.py")
             then [os_path_join directory_path file]
             else []
         | Dir _ _ => []
         end) entries.

Definition find_files (directory_path : string) (entries : list entry)
  (recursive : bool) : result (list string) :=
  match os_listdir entries with
  | [] =>
      Raise (FileNotFoundError
               ("There are no python source files in " ++ directory_path ++ ".")%string)
  | _ :: _ =>
      match modules directory_path entries recursive with
      | [] =>
          Raise (FileNotFoundError
                   ("No python modules found in: " ++ directory_path ++ ".")%string)
      | (_ :: _) as found => Return (sorted found)
      end
  end.

(** ** The name of a module in the table

    The row of a module is printed under a name made from the path of
    the file: [os.path.basename(directory_path)] followed by
    [pathlib.Path(file_name.split(directory_path)[1].replace(os.path.sep, ".")).stem],
    cut to 42 characters and padded to 43. *)

(** [s[n:]] *)
Fixpoint drop (n : nat) (s : string) : string :=
  match n, s with
  | O, _ => s
  | S n', String _ s' => drop n' s'
  | S _, EmptyString => EmptyString
  end.

(** [s.partition(sep)]: the text before the first occurrence of [sep]
    and the text after it, if [sep] occurs. *)
Fixpoint partition (sep s : string) : option (string * string) :=
  if String.prefix sep s then Some (EmptyString, drop (String.length sep) s)
  else match s with
       | EmptyString => None
       | String c s' =>
           match partition sep s' with
           | Some (before, after) => Some (String c before, after)
           | None => None
           end
       end.

(** [s.split(sep)[1]]: [ValueError] for an empty separator,
    [IndexError] when [sep] does not occur; otherwise what stands
    between the first occurrence and the next one, or the end. *)
Definition split_second (s sep : string) : str_error + string :=
  if String.eqb sep "" then inl ValueError
  else match partition sep s with
       | None => inl IndexError
       | Some (_, rest) =>
           match partition sep rest with
           | None => inr rest
           | Some (second, _) => inr second
           end
       end.

(** [s.replace(os.path.sep, ".")], the separator being ["/"]. *)
Fixpoint replace_sep (s : string) : string :=
  match s with
  | EmptyString => EmptyString
  | String c s' =>
      String (if Ascii.eqb c "/"%char then "."%char else c) (replace_sep s')
  end.

(** [os.path.basename(p)]: [p[p.rfind('/') + 1:]]. *)
Definition os_path_basename (p : string) : string :=
  match Py.rfind "/"%char p with
  | Some i => Py.slice_from (S i) p
  | None => p
  end.

(** [pathlib.Path(p).stem]: the final component up to its last dot, when
    that dot is neither its first nor its last character.  The final
    component of ["."] is empty. *)
Definition path_stem (p : string) : string :=
  let final := if String.eqb p "." then ""%string else path_name p in
  match Py.rfind "."%char final with
  | Some i =>
      if ((0 <? i)%nat && (i <? String.length final - 1)%nat)%bool
      then String.substring 0 i final
      else final
  | None => final
  end.

(** [module_name] of [create_report]. *)
Definition module_name (directory_path file_name : string) : str_error + string :=
  match split_second file_name directory_path with
  | inl e => inl e
  | inr relative =>
      inr (os_path_basename directory_path ++ path_stem (replace_sep relative))%string
  end.

(** [n] spaces. *)
Fixpoint spaces (n : nat) : string :=
  match n with
  | O => EmptyString
  | S n' => String " "%char (spaces n')
  end.

(** Python counts the characters of a [str], not the bytes of its UTF-8
    form: a character is a byte that is no continuation byte (of the
    form [10xxxxxx]) together with the continuation bytes after it. *)
Definition is_continuation (b : ascii) : bool :=
  match b with
  | Ascii _ _ _ _ _ _ b6 b7 => b7 && negb b6
  end.

(** [len(s)], in characters. *)
Fixpoint char_length (s : string) : nat :=
  match s with
  | EmptyString => 0
  | String b s' =>
      if is_continuation b then char_length s' else S (char_length s')
  end.

(** [s[:n]], in characters. *)
Fixpoint take_chars (n : nat) (s : string) : string :=
  match s with
  | EmptyString => EmptyString
  | String b s' =>
      if is_continuation b then String b (take_chars n s')
      else match n with
           | O => EmptyString
           | S n' => String b (take_chars n' s')
           end
  end.

(** [f'{module_name[:42]: <43}']: the first 42 characters, left-aligned
    in a field of 43 characters. *)
Definition name_column (module_name : string) : string :=
  let shown := take_chars 42 module_name in
  (shown ++ spaces (43 - char_length shown))%string.

(** ** The report: statistics of a module and of the package *)

(** A Python [dict] with [str] keys, in insertion order. *)
Definition dict (V : Type) : Type := list (string * V).

(** [d[k] = v] *)
Fixpoint dict_set {V : Type} (d : dict V) (k : string) (v : V) : dict V :=
  match d with
  | [] => [(k, v)]
  | (k', v') :: d' =>
      if String.eqb k' k then (k', v) :: d' else (k', v') :: dict_set d' k v
  end.

(** [d[k]] *)
Fixpoint dict_get {V : Type} (d : dict V) (k : string) : result V :=
  match d with
  | [] => Raise (KeyError k)
  | (k', v') :: d' => if String.eqb k' k then Return v' else dict_get d' k
  end.

(** [list(d.values())] *)
Definition dict_values {V : Type} (d : dict V) : list V := map snd d.

(** [len(l)] *)
Definition len {A : Type} (l : list A) : Z := Z.of_nat (List.length l).

(** A Python integer as operand of [/]: the binary64 number nearest to
    it.  For two integers below [2^53], which the lengths of lists are,
    the binary64 quotient of these numbers is the value of [a / b]. *)
Definition float_of_int (z : Z) : float := PrimFloat.of_uint63 (Uint63.of_Z z).

(** [covered/total*100] in binary64 when [total] is not zero, [100]
    otherwise (printed with the same format). *)
Definition percentage_covered (covered total : Z) : float :=
  if Z.eqb total 0 then 100%float
  else (float_of_int covered / float_of_int total * 100)%float.

(** A line of the table: what the [print] call of a module, or of the
    package, is given. *)
Record row : Type := mk_row
  { row_name : string;
    row_total : Z;
    row_missing : Z;
    row_percentage : float }.

Record report_state : Type := mk_state
  { all_methods_with_example : dict (list string);
    all_methods_without_example : dict (list string);
    printed : list row }.

(** One iteration of [for file_name in find_files(...)], from the parsed
    [tree] of the file on. *)
Definition module_step (directory_path : string) (st : report_state)
  (file : string * list stmt) : result report_state :=
  let '(file_name, tree) := file in
  let without := dict_set (all_methods_without_example st) file_name (without_example tree) in
  let with_ := dict_set (all_methods_with_example st) file_name (with_example tree) in
  stored_without <- dict_get without file_name ;;
  stored_with <- dict_get with_ file_name ;;
  let missing := len stored_without in
  let total := (missing + len stored_with)%Z in
  let covered := (total - missing)%Z in
  let percentage := percentage_covered covered total in
  match module_name directory_path file_name with
  | inl e => Raise (StrError e)
  | inr shown =>
      Return (mk_state with_ without
                (printed st ++ [mk_row shown total missing percentage]))
  end.

(** The loop [for file_name in ...]: [parse file_name] is the tree that
    [ast.parse] makes of the text read from the file, or the exception
    raised on the way. *)
Fixpoint module_loop (parse : string -> result (list stmt)) (directory_path : string)
  (st : report_state) (files : list string) : result report_state :=
  match files with
  | [] => Return st
  | file_name :: files' =>
      tree <- parse file_name ;;
      st' <- module_step directory_path st (file_name, tree) ;;
      module_loop parse directory_path st' files'
  end.

(** The statistics of the entire package, computed after the loop. *)
Definition package_row (st : report_state) : row :=
  let all_methods_with_example_list := List.concat (dict_values (all_methods_with_example st)) in
  let all_methods_without_example_list := List.concat (dict_values (all_methods_without_example st)) in
  let package_total :=
    (len all_methods_with_example_list + len all_methods_without_example_list)%Z in
  let package_missing := len all_methods_without_example_list in
  mk_row "Total" package_total package_missing
    (percentage_covered (package_total - package_missing)%Z package_total).

(** ** The entry point *)

(** [create_report(directory_path, recursive)]: the rows printed for the
    modules, in the order of [find_files], then the row of the package. *)
Definition create_report (parse : string -> result (list stmt))
  (directory_path : string) (entries : list entry) (recursive : bool)
  : result (list row * row) :=
  files <- find_files directory_path entries recursive ;;
  st <- module_loop parse directory_path (mk_state [] [] []) files ;;
  Return (printed st, package_row st).

(** ** Notions used to state the properties *)

(** What a function, a class and a method add to (missing, covered). *)
Definition function_entries (f : function_def) : lists := function_step ([], []) f.
Definition class_entries (c : class_def) : lists := snd (class_step ([], ([], [])) c).
Definition method_entries (m : function_def) : lists := method_step ([], []) m.

(** The two tests of the decorator loop. *)
Definition is_property (decorator : expr) : bool :=
  match decorator with
  | Name id => String.eqb id "property"
  | _ => false
  end.

Definition is_setter (decorator : expr) : bool :=
  match decorator with
  | Attribute _ attr => String.eqb attr "setter"
  | _ => false
  end.

Definition is_marker (decorator : expr) : bool :=
  is_property decorator || is_setter decorator.

(** The number of decorators of a method that pass a test. *)
Definition count (test : expr -> bool) (m : function_def) : nat :=
  List.length (filter test (decorator_list m)).

(** The decorator loop run on a list of decorators, from empty lists. *)
Definition run (m : function_def) (ds : list expr) : lists * bool :=
  fold_left (decorator_step m) ds (([], []), false).

(** A declaration has a documentation string that contains the text
    "Example". *)
Definition has_example (doc : option string) : Prop :=
  exists d before after,
    doc = Some d /\ d = (before ++ "Example" ++ after)%string.

Definition foo_bar_module : list stmt :=
  [ FunctionDef (mk_function_def "foo" [] (Some "Example: foo()"));
    FunctionDef (mk_function_def "bar" [] None);
    ClassDef "Widget" (Some "A widget.  Examples: Widget()")
      [ FunctionDef (mk_function_def "run" [] None) ] ].

Definition getter_setter_pair : list stmt :=
  [ ClassDef "C" (Some "Example: C()")
      [ FunctionDef (mk_function_def "x" [Name "property"] (Some "Example: c.x"));
        FunctionDef (mk_function_def "x" [Attribute (Name "x") "setter"] None) ] ].

Definition doubly_decorated : function_def :=
  mk_function_def "x" [Name "property"; Attribute (Name "x") "setter"] None.

Definition getter_and_setter_on_one_method : list stmt :=
  [ ClassDef "C" (Some "Example: C()") [ FunctionDef doubly_decorated ] ].

Definition private_property : list stmt :=
  [ ClassDef "C" (Some "Example: C()")
      [ FunctionDef (mk_function_def "_x" [Name "property"] None) ] ].

Definition private_class_and_function : list stmt :=
  [ FunctionDef (mk_function_def "_f" [] None);
    ClassDef "_f" None [] ].

Definition private_helpers : list stmt :=
  [ FunctionDef (mk_function_def "_helper" [] None);
    ClassDef "C" (Some "Example: C()")
      [ FunctionDef (mk_function_def "_helper" [Name "staticmethod"] None);
        FunctionDef (mk_function_def "run" [] (Some "Example: c.run()")) ] ].

(** The names of the declarations the three loops range over. *)
Definition declared_names (tree : list stmt) : list string :=
  map name (function_nodes tree)
    ++ map cname (class_nodes tree)
    ++ map name (method_definitions tree).

(** An [async def] replaced by a statement that is no definition. *)
Definition erase_node (node : stmt) : stmt :=
  match node with
  | AsyncFunctionDef _ => OtherStmt
  | _ => node
  end.

(** The module with every [async def], at top level and in the bodies of
    its classes, replaced. *)
Definition erase_async (tree : list stmt) : list stmt :=
  map (fun node => match node with
                   | ClassDef n d body => ClassDef n d (map erase_node body)
                   | _ => erase_node node
                   end) tree.

Definition async_module : list stmt :=
  [ AsyncFunctionDef (mk_function_def "fetch" [] (Some "Example: await fetch()"));
    ClassDef "Client" (Some "Example: Client()")
      [ AsyncFunctionDef (mk_function_def "send" [Name "property"] None);
        FunctionDef (mk_function_def "close" [] None) ] ].

(** What a row reports about a covered and a missing list: the total,
    the missing count, and the percentage, which is the binary64 value
    of [covered/total*100] for a total that is not zero (the counts
    being below [2^53]) and 100 for the total zero. *)
Definition stats_of (covered missing : list string) (r : row) : Prop :=
  row_total r = (len covered + len missing)%Z
  /\ row_missing r = len missing
  /\ ((0 < row_total r < 2 ^ 53)%Z ->
      row_percentage r
      = (float_of_int (len covered) / float_of_int (row_total r) * 100)%float)
  /\ (row_total r = 0%Z -> row_percentage r = 100%float).

(** The dictionaries after the loop. *)
Definition store (lists_of : list stmt -> list string) (d : dict (list string))
  (files : list (string * list stmt)) : dict (list string) :=
  fold_left (fun d file => dict_set d (fst file) (lists_of (snd file))) files d.

(** The files of [example_directory], parsed. *)
Definition example_parse (file_name : string) : result (list stmt) :=
  if String.eqb file_name "pkg/b.py" then Return foo_bar_module
  else if String.eqb file_name "pkg/sub/a.py" then Return []
  else Raise (SyntaxError "invalid syntax").

(** The lexicographic order on strings: the empty string first, then by
    the code of the first character that differs. *)
Inductive lex_le : string -> string -> Prop :=
| lex_empty : forall t, lex_le "" t
| lex_less : forall a b s t,
    (N_of_ascii a < N_of_ascii b)%N -> lex_le (String a s) (String b t)
| lex_same : forall a s t, lex_le s t -> lex_le (String a s) (String a t).

Definition example_directory : list entry :=
  [ File "b.py"; File "__init__.py"; File "README.md";
    Dir "sub" [ File "a.py"; File "__init__.py" ] ].

Definition initializer_lookalike : list entry :=
  [ File "my__init__.py"; File "a.py" ].

(** ** Further notions *)

(** A function or a method is listed, in one of the two lists: a
    function unless its name is private, a method when it carries a
    [property] or [<value>.setter] decorator or its name is not
    private.  Classes are always listed. *)
Definition function_listed (f : function_def) : bool :=
  negb (Py.startswith (name f) "_").

Definition method_listed (m : function_def) : bool :=
  existsb is_marker (decorator_list m) || negb (Py.startswith (name m) "_").

(** How often a declaration adds its name to the two lists together. *)
Definition class_listed (c : class_def) : bool := true.

Definition function_weight (f : function_def) : nat :=
  if Py.startswith (name f) "_" then 0 else 1.

Definition class_weight (c : class_def) : nat := 1.

Definition method_weight (m : function_def) : nat :=
  if existsb is_marker (decorator_list m) then count is_marker m
  else if Py.startswith (name m) "_" then 0 else 1.

(** The names of the declarations of a module that are listed. *)
Definition listed_names (tree : list stmt) : list string :=
  map name (filter function_listed (function_nodes tree))
    ++ map cname (class_nodes tree)
    ++ map name (filter method_listed (method_definitions tree)).

Definition setter_then_getter : function_def :=
  mk_function_def "x" [Attribute (Name "x") "setter"; Name "property"] None.

Definition setter_and_getter_on_one_method : list stmt :=
  [ ClassDef "C" (Some "Example: C()") [ FunctionDef setter_then_getter ] ].

Definition two_initializers : list stmt :=
  [ ClassDef "A" (Some "Example: A()")
      [ FunctionDef (mk_function_def "__init__" [] None) ];
    ClassDef "B" None
      [ FunctionDef (mk_function_def "__init__" [] None);
        FunctionDef (mk_function_def "run" [] (Some "Example: b.run()")) ] ].



(** The name [pkg.] followed by an e with acute accent, two bytes in
    UTF-8. *)
Definition accented_name : string :=
  ("pkg." ++ String "195"%char (String "169"%char EmptyString))%string.

(** [parts] are the parts of the path of the entry [e], found in
    [entries] or below, the parts of the directory that holds [entries]
    being [dir]. *)
Inductive located : list string -> list entry -> list string -> entry -> Prop :=
| located_here : forall dir entries e,
    In e entries ->
    located dir entries (dir ++ [entry_name e]) e
| located_below : forall dir entries n children parts e,
    In (Dir n children) entries ->
    located (dir ++ [n]) children parts e ->
    located dir entries parts e.

(** A class body in which only the function definitions are left: every
    other statement, a nested class included, replaced by a statement
    that defines nothing. *)
Definition only_methods (body : list stmt) : list stmt :=
  map (fun node => match node with
                   | FunctionDef f => FunctionDef f
                   | _ => OtherStmt
                   end) body.

(** The module with the bodies of its classes reduced to their function
    definitions. *)
Definition flatten_classes (tree : list stmt) : list stmt :=
  map (fun node => match node with
                   | ClassDef n d body => ClassDef n d (only_methods body)
                   | _ => node
                   end) tree.

(** A row is within bounds: the missing count between zero and the
    total, and the percentage 100 for the total zero. *)
Definition bounded_row (r : row) : Prop :=
  (0 <= row_missing r <= row_total r)%Z
  /\ (row_total r = 0%Z -> row_percentage r = 100%float).

(** The sum of a column. *)
Definition column_sum (column : row -> Z) (rows : list row) : Z :=
  fold_right (fun r acc => (column r + acc)%Z) 0%Z rows.

Definition nested_module : list stmt :=
  [ ClassDef "Outer" (Some "Example: Outer()")
      [ ClassDef "Inner" None
          [ FunctionDef (mk_function_def "hidden" [] None) ];
        FunctionDef (mk_function_def "shown" [] (Some "Example: o.shown()")) ] ].

Definition deep_directory : list entry :=
  [ File "b.py";
    Dir "sub" [ File "a.py"; File "__init__.py"; Dir "plugin.py" [ File "notes.txt" ] ] ].

(** * Properties of the classifier *)

(** ** Loops that only append

    Every step of the three loops leaves the names already in the two
    lists in place and appends its own; what one declaration adds, its
    entries, is the step from two empty lists. *)

Section AppendOnly.

Variable A : Type.
Variable step : lists -> A -> lists.

Hypothesis step_app : forall missing covered a,
    step (missing, covered) a
    = (missing ++ fst (step ([], []) a), covered ++ snd (step ([], []) a)).

Lemma fold_left_entries : forall l missing covered,
    fold_left step l (missing, covered)
    = (missing ++ flat_map (fun a => fst (step ([], []) a)) l,
       covered ++ flat_map (fun a => snd (step ([], []) a)) l).
Proof.
  induction l as [|a l IH]; intros missing covered; simpl.
  - now rewrite !app_nil_r.
  - rewrite step_app, IH, <- !app_assoc. reflexivity.
Qed.

End AppendOnly.

Lemma function_step_app : forall missing covered f,
    function_step (missing, covered) f
    = (missing ++ fst (function_step ([], []) f),
       covered ++ snd (function_step ([], []) f)).
Proof.
  intros missing covered f. unfold function_step.
  destruct (Py.startswith (name f) "_"); [|destruct (lacks_example (get_docstring f))];
    simpl; now rewrite ?app_nil_r.
Qed.

Lemma class_step_app : forall methods missing covered c,
    class_step (methods, (missing, covered)) c
    = (methods ++ function_nodes (cbody c),
       (missing ++ fst (class_entries c), covered ++ snd (class_entries c))).
Proof.
  intros methods missing covered c. unfold class_entries, class_step.
  destruct (lacks_example (cdocstring c)); simpl; now rewrite ?app_nil_r.
Qed.

Lemma decorator_step_app : forall m missing covered prop d,
    decorator_step m ((missing, covered), prop) d
    = ((missing ++ fst (fst (decorator_step m (([], []), false) d)),
        covered ++ snd (fst (decorator_step m (([], []), false) d))),
       prop || snd (decorator_step m (([], []), false) d)).
Proof.
  intros m missing covered prop d. unfold decorator_step.
  destruct d as [id | v attr |].
  - destruct (String.eqb id "property").
    + destruct (get_docstring m) as [doc|];
        [destruct (negb (Py.contains "Example" doc))|];
        simpl; now rewrite ?app_nil_r, ?orb_true_r.
    + simpl. now rewrite !app_nil_r, orb_false_r.
  - destruct (String.eqb attr "setter"); simpl;
      now rewrite ?app_nil_r, ?orb_true_r, ?orb_false_r.
  - simpl. now rewrite !app_nil_r, orb_false_r.
Qed.

Lemma fold_left_cons : forall (S A : Type) (f : S -> A -> S) (a : A) (l : list A) (s : S),
    fold_left f (a :: l) s = fold_left f l (f s a).
Proof. reflexivity. Qed.

Lemma decorator_fold_app : forall m ds missing covered prop,
    fold_left (decorator_step m) ds ((missing, covered), prop)
    = ((missing ++ fst (fst (fold_left (decorator_step m) ds (([], []), false))),
        covered ++ snd (fst (fold_left (decorator_step m) ds (([], []), false)))),
       prop || snd (fold_left (decorator_step m) ds (([], []), false))).
Proof.
  intros m ds. induction ds as [|d ds IH]; intros missing covered prop.
  - simpl. now rewrite !app_nil_r, orb_false_r.
  - rewrite !fold_left_cons, (decorator_step_app m missing covered prop d), IH.
    destruct (decorator_step m (([], []), false) d) as [[dm dc] q].
    rewrite (IH dm dc q). simpl. now rewrite <- !app_assoc, orb_assoc.
Qed.

Lemma method_step_app : forall missing covered m,
    method_step (missing, covered) m
    = (missing ++ fst (method_step ([], []) m),
       covered ++ snd (method_step ([], []) m)).
Proof.
  intros missing covered m. unfold method_step, decorator_loop.
  rewrite (decorator_fold_app m (decorator_list m) missing covered false).
  destruct (fold_left (decorator_step m) (decorator_list m) (([], []), false))
    as [[dm dc] prop]. simpl.
  destruct prop; [reflexivity|].
  destruct (Py.startswith (name m) "_"); [reflexivity|].
  destruct (lacks_example (get_docstring m)); simpl; now rewrite <- ?app_assoc.
Qed.

(** The lists of a module are the entries of its declarations, in the
    order functions, classes, methods. *)

Lemma classify_functions_entries : forall tree,
    classify_functions tree
    = (flat_map (fun f => fst (function_entries f)) (function_nodes tree),
       flat_map (fun f => snd (function_entries f)) (function_nodes tree)).
Proof.
  intros tree. unfold classify_functions.
  now rewrite (fold_left_entries _ function_step function_step_app).
Qed.

Lemma class_loop_entries : forall cs methods missing covered,
    fold_left class_step cs (methods, (missing, covered))
    = (methods ++ flat_map (fun c => function_nodes (cbody c)) cs,
       (missing ++ flat_map (fun c => fst (class_entries c)) cs,
        covered ++ flat_map (fun c => snd (class_entries c)) cs)).
Proof.
  induction cs as [|c cs IH]; intros methods missing covered.
  - simpl. now rewrite !app_nil_r.
  - rewrite fold_left_cons, class_step_app, IH. simpl.
    now rewrite <- !app_assoc.
Qed.

Lemma classify_classes_entries : forall tree,
    classify_classes tree
    = (flat_map (fun c => function_nodes (cbody c)) (class_nodes tree),
       (flat_map (fun c => fst (class_entries c)) (class_nodes tree),
        flat_map (fun c => snd (class_entries c)) (class_nodes tree))).
Proof. intros tree. unfold classify_classes. now rewrite class_loop_entries. Qed.

Lemma method_definitions_eq : forall tree,
    method_definitions tree
    = flat_map (fun c => function_nodes (cbody c)) (class_nodes tree).
Proof. intros tree. unfold method_definitions. now rewrite classify_classes_entries. Qed.

Lemma classify_methods_entries : forall tree,
    classify_methods tree
    = (flat_map (fun m => fst (method_entries m)) (method_definitions tree),
       flat_map (fun m => snd (method_entries m)) (method_definitions tree)).
Proof.
  intros tree. unfold classify_methods.
  now rewrite (fold_left_entries _ method_step method_step_app).
Qed.

Lemma without_example_entries : forall tree,
    without_example tree
    = (flat_map (fun f => fst (function_entries f)) (function_nodes tree)
       ++ flat_map (fun c => fst (class_entries c)) (class_nodes tree))
      ++ flat_map (fun m => fst (method_entries m)) (method_definitions tree).
Proof.
  intros tree. unfold without_example.
  now rewrite classify_functions_entries, classify_classes_entries,
    classify_methods_entries.
Qed.

Lemma with_example_entries : forall tree,
    with_example tree
    = (flat_map (fun f => snd (function_entries f)) (function_nodes tree)
       ++ flat_map (fun c => snd (class_entries c)) (class_nodes tree))
      ++ flat_map (fun m => snd (method_entries m)) (method_definitions tree).
Proof.
  intros tree. unfold with_example.
  now rewrite classify_functions_entries, classify_classes_entries,
    classify_methods_entries.
Qed.

(** Membership in the nodes a loop ranges over. *)

Lemma in_function_nodes : forall body f,
    In f (function_nodes body) <-> In (FunctionDef f) body.
Proof.
  intros body f. unfold function_nodes. rewrite in_flat_map. split.
  - intros [node [Hin Hf]]. destruct node; simpl in Hf; try contradiction.
    destruct Hf as [-> | []]. exact Hin.
  - intros Hin. exists (FunctionDef f). split; [exact Hin | now left].
Qed.

Lemma in_class_nodes : forall tree c,
    In c (class_nodes tree) <-> In (ClassDef (cname c) (cdocstring c) (cbody c)) tree.
Proof.
  intros tree c. unfold class_nodes. rewrite in_flat_map. split.
  - intros [node [Hin Hc]]. destruct node; simpl in Hc; try contradiction.
    destruct Hc as [<- | []]. exact Hin.
  - intros Hin. exists (ClassDef (cname c) (cdocstring c) (cbody c)).
    split; [exact Hin | left; now destruct c].
Qed.

Lemma in_method_definitions : forall tree m,
    In m (method_definitions tree)
    <-> exists n d body, In (ClassDef n d body) tree /\ In (FunctionDef m) body.
Proof.
  intros tree m. rewrite method_definitions_eq, in_flat_map. split.
  - intros [c [Hc Hm]]. apply in_class_nodes in Hc. apply in_function_nodes in Hm.
    now exists (cname c), (cdocstring c), (cbody c).
  - intros [n [d [body [Hc Hm]]]]. exists (mk_class_def n d body). split.
    + now apply in_class_nodes.
    + now apply in_function_nodes.
Qed.

(** ** What each declaration adds *)

Lemma function_entries_eq : forall f,
    function_entries f
    = if Py.startswith (name f) "_" then ([], [])
      else if lacks_example (get_docstring f) then ([name f], [])
           else ([], [name f]).
Proof.
  intros f. unfold function_entries, function_step.
  destruct (Py.startswith (name f) "_"); [reflexivity|].
  now destruct (lacks_example (get_docstring f)).
Qed.

Lemma class_entries_eq : forall c,
    class_entries c
    = if lacks_example (cdocstring c) then ([cname c], []) else ([], [cname c]).
Proof.
  intros c. unfold class_entries, class_step.
  now destruct (lacks_example (cdocstring c)).
Qed.

Lemma decorator_step_eq : forall m d,
    decorator_step m (([], []), false) d
    = if is_property d
      then (if lacks_example (get_docstring m)
            then (([name m], []), true)
            else (([], [name m]), true))
      else if is_setter d then (([], [name m]), true)
           else (([], []), false).
Proof.
  intros m d. unfold decorator_step, lacks_example.
  destruct d as [id | v attr |]; simpl.
  - destruct (String.eqb id "property"); [|reflexivity].
    destruct (get_docstring m) as [doc|]; [|reflexivity].
    now destruct (Py.contains "Example" doc).
  - now destruct (String.eqb attr "setter").
  - reflexivity.
Qed.

Lemma marker_exclusive : forall d, is_property d = true -> is_setter d = false.
Proof. intros [id | v attr |]; simpl; congruence. Qed.

Section DecoratorLoop.

Variable m : function_def.

Lemma run_cons : forall d ds,
    run m (d :: ds)
    = ((fst (fst (decorator_step m (([], []), false) d)) ++ fst (fst (run m ds)),
        snd (fst (decorator_step m (([], []), false) d)) ++ snd (fst (run m ds))),
       snd (decorator_step m (([], []), false) d) || snd (run m ds)).
Proof.
  intros d ds. unfold run. rewrite fold_left_cons.
  destruct (decorator_step m (([], []), false) d) as [[dm dc] q].
  now rewrite decorator_fold_app.
Qed.

Lemma run_prop : forall ds, snd (run m ds) = existsb is_marker ds.
Proof.
  induction ds as [|d ds IH]; [reflexivity|].
  rewrite run_cons, decorator_step_eq, IH. cbn [snd existsb]. unfold is_marker.
  destruct (is_property d) eqn:Hp.
  - now destruct (lacks_example (get_docstring m)).
  - now destruct (is_setter d).
Qed.

Lemma run_missing : forall ds,
    fst (fst (run m ds))
    = if lacks_example (get_docstring m)
      then repeat (name m) (List.length (filter is_property ds))
      else [].
Proof.
  induction ds as [|d ds IH].
  - simpl. now destruct (lacks_example (get_docstring m)).
  - rewrite run_cons, decorator_step_eq, IH. cbn [fst filter].
    destruct (is_property d) eqn:Hp.
    + now destruct (lacks_example (get_docstring m)).
    + now destruct (is_setter d).
Qed.

Lemma run_covered : forall ds,
    snd (fst (run m ds))
    = if lacks_example (get_docstring m)
      then repeat (name m) (List.length (filter is_setter ds))
      else repeat (name m) (List.length (filter is_marker ds)).
Proof.
  induction ds as [|d ds IH].
  - simpl. now destruct (lacks_example (get_docstring m)).
  - rewrite run_cons, decorator_step_eq, IH. cbn [fst snd filter]. unfold is_marker.
    destruct (is_property d) eqn:Hp.
    + rewrite (marker_exclusive d Hp).
      now destruct (lacks_example (get_docstring m)).
    + destruct (is_setter d); now destruct (lacks_example (get_docstring m)).
Qed.

End DecoratorLoop.

Lemma filter_none : forall (A : Type) (test : A -> bool) (l : list A),
    (forall a, In a l -> test a = false) -> filter test l = [].
Proof.
  intros A test l. induction l as [|a l IH]; intros H; [reflexivity|].
  simpl. rewrite (H a (or_introl eq_refl)). apply IH.
  intros b Hb. apply H. now right.
Qed.

Lemma decorator_loop_eq : forall m,
    decorator_loop m ([], [])
    = ((if lacks_example (get_docstring m)
        then (repeat (name m) (count is_property m), repeat (name m) (count is_setter m))
        else ([], repeat (name m) (count is_marker m))),
       existsb is_marker (decorator_list m)).
Proof.
  intros m. unfold decorator_loop, count.
  rewrite (surjective_pairing (fold_left _ _ _)).
  rewrite (surjective_pairing (fst (fold_left _ _ _))).
  fold (run m (decorator_list m)). rewrite run_prop, run_missing, run_covered.
  now destruct (lacks_example (get_docstring m)).
Qed.

Lemma method_entries_eq : forall m,
    method_entries m
    = if existsb is_marker (decorator_list m)
      then fst (decorator_loop m ([], []))
      else if Py.startswith (name m) "_" then ([], [])
           else if lacks_example (get_docstring m) then ([name m], [])
                else ([], [name m]).
Proof.
  intros m. unfold method_entries, method_step.
  pose proof (decorator_loop_eq m) as H.
  destruct (decorator_loop m ([], [])) as [[dm dc] prop].
  injection H as Hl Hp. subst prop.
  destruct (existsb is_marker (decorator_list m)) eqn:He; [reflexivity|].
  assert (Hc : forall test, (forall d, test d = true -> is_marker d = true) ->
                       filter test (decorator_list m) = []).
  { intros test Ht. apply filter_none.
    intros d Hd. destruct (test d) eqn:Htd; [|reflexivity].
    assert (existsb is_marker (decorator_list m) = true)
      by (apply existsb_exists; exists d; auto).
    congruence. }
  unfold count in Hl.
  rewrite (Hc is_marker), (Hc is_property), (Hc is_setter) in Hl;
    try (unfold is_marker; intros d ->; auto using orb_true_r); auto.
  simpl in Hl.
  assert (dm = [] /\ dc = []) as [-> ->]
      by (destruct (lacks_example (get_docstring m)); now inversion Hl).
  destruct (Py.startswith (name m) "_"); [reflexivity|].
  now destruct (lacks_example (get_docstring m)).
Qed.

(** ** The test on documentation strings *)

Lemma prefix_iff : forall p s,
    String.prefix p s = true <-> exists t, s = (p ++ t)%string.
Proof.
  induction p as [|a p IH]; intros s; simpl.
  - split; [intros _; now exists s | intros _; now destruct s].
  - destruct s as [|b s].
    + split; [discriminate | intros [t Ht]; discriminate].
    + simpl. destruct (ascii_dec a b) as [-> | Hab].
      * rewrite IH. split; intros [t Ht]; exists t; [now subst | now inversion Ht].
      * split; [discriminate | intros [t Ht]; simpl in Ht; congruence].
Qed.

Lemma contains_empty : forall sub,
    Py.contains sub "" = String.prefix sub "".
Proof. intros sub. cbn [Py.contains]. apply orb_false_r. Qed.

Lemma contains_String : forall sub a s,
    Py.contains sub (String a s)
    = String.prefix sub (String a s) || Py.contains sub s.
Proof. reflexivity. Qed.

(** [sub in s] holds exactly when [s] is some text, then [sub], then
    some text. *)
Lemma contains_iff : forall sub s,
    Py.contains sub s = true
    <-> exists before after, s = (before ++ sub ++ after)%string.
Proof.
  intros sub s. induction s as [|a s IH].
  - rewrite contains_empty, prefix_iff. split.
    + intros [t Ht]. now exists ""%string, t.
    + intros [before [after H]]. destruct before as [|b before]; [|discriminate].
      now exists after.
  - rewrite contains_String, orb_true_iff, prefix_iff, IH. split.
    + intros [[t Ht] | [before [after H]]].
      * now exists ""%string, t.
      * exists (String a before), after. simpl. now rewrite H.
    + intros [before [after H]]. destruct before as [|b before].
      * left. now exists after.
      * right. simpl in H. inversion H. now exists before, after.
Qed.

Lemma lacks_example_false : forall doc,
    lacks_example doc = false <-> has_example doc.
Proof.
  intros doc. unfold lacks_example, has_example. destruct doc as [d|].
  - rewrite negb_false_iff, contains_iff. split.
    + intros [before [after H]]. now exists d, before, after.
    + intros [d' [before [after [Hd H]]]]. inversion Hd. subst d'.
      now exists before, after.
  - split; [discriminate | intros [d [b [a [H _]]]]; discriminate].
Qed.

Lemma lacks_example_true : forall doc,
    lacks_example doc = true <-> ~ has_example doc.
Proof.
  intros doc. rewrite <- lacks_example_false.
  destruct (lacks_example doc); split; congruence.
Qed.

(** ** Where the names of the two lists come from *)

Lemma in_with_example : forall tree x,
    In x (with_example tree)
    <-> (exists f, In f (function_nodes tree) /\ In x (snd (function_entries f)))
        \/ (exists c, In c (class_nodes tree) /\ In x (snd (class_entries c)))
        \/ (exists m, In m (method_definitions tree) /\ In x (snd (method_entries m))).
Proof.
  intros tree x. rewrite with_example_entries, !in_app_iff, !in_flat_map. tauto.
Qed.

Lemma in_without_example : forall tree x,
    In x (without_example tree)
    <-> (exists f, In f (function_nodes tree) /\ In x (fst (function_entries f)))
        \/ (exists c, In c (class_nodes tree) /\ In x (fst (class_entries c)))
        \/ (exists m, In m (method_definitions tree) /\ In x (fst (method_entries m))).
Proof.
  intros tree x. rewrite without_example_entries, !in_app_iff, !in_flat_map. tauto.
Qed.

Lemma existsb_count : forall (test : expr -> bool) m,
    existsb test (decorator_list m) = true -> 1 <= count test m.
Proof.
  intros test m. unfold count. induction (decorator_list m) as [|d ds IH]; simpl.
  - discriminate.
  - destruct (test d); simpl; [lia | exact IH].
Qed.

Lemma in_repeat : forall (x : string) n, 1 <= n -> In x (repeat x n).
Proof. intros x [|n] H; [lia | now left]. Qed.

(** With a property or setter decorator on the method, the iteration
    ends with the lists of the decorator loop: neither the test on the
    name nor the default test is reached. *)
Lemma method_step_marker : forall m,
    existsb is_marker (decorator_list m) = true ->
    forall st, method_step st m = fst (decorator_loop m st).
Proof.
  intros m Hm [missing covered]. unfold method_step, decorator_loop.
  rewrite (decorator_fold_app m (decorator_list m) missing covered false).
  fold (decorator_loop m ([], [])). rewrite decorator_loop_eq, Hm.
  now destruct (lacks_example (get_docstring m)).
Qed.

Lemma existsb_marker_of : forall ds,
    existsb is_property ds = true \/ existsb is_setter ds = true ->
    existsb is_marker ds = true.
Proof.
  intros ds H. apply existsb_exists.
  destruct H as [H | H]; apply existsb_exists in H; destruct H as [d [Hd Ht]];
    exists d; unfold is_marker; rewrite Ht; auto using orb_true_r.
Qed.

Lemma count_none : forall test m,
    existsb test (decorator_list m) = false -> count test m = 0.
Proof.
  intros test m H. unfold count. rewrite filter_none; [reflexivity|].
  intros d Hd. destruct (test d) eqn:Ht; [|reflexivity].
  assert (existsb test (decorator_list m) = true)
    by (apply existsb_exists; now exists d).
  congruence.
Qed.

Lemma count_marker : forall m,
    count is_marker m = count is_property m + count is_setter m.
Proof.
  intros m. unfold count, is_marker.
  induction (decorator_list m) as [|d ds IH]; [reflexivity|]. simpl.
  destruct (is_property d) eqn:Hp.
  - rewrite (marker_exclusive d Hp). simpl. now rewrite IH.
  - destruct (is_setter d); simpl; rewrite IH; lia.
Qed.

(** * The classification rules *)

(** ** Functions and classes *)

(** C5.  A top-level function or class whose name does not start with an
    underscore is added to the covered list when its documentation
    string exists and contains "Example", and to the missing list
    otherwise; what a class adds does not depend on its body, hence not
    on how its methods are classified. *)
Theorem function_and_class_rule : forall tree,
    (forall f, In (FunctionDef f) tree ->
               Py.startswith (name f) "_" = false ->
               (has_example (get_docstring f) ->
                function_entries f = ([], [name f])
                /\ In (name f) (with_example tree))
               /\ (~ has_example (get_docstring f) ->
                   function_entries f = ([name f], [])
                   /\ In (name f) (without_example tree)))
    /\ (forall n d body, In (ClassDef n d body) tree ->
                         Py.startswith n "_" = false ->
                         (has_example d ->
                          class_entries (mk_class_def n d body) = ([], [n])
                          /\ In n (with_example tree))
                         /\ (~ has_example d ->
                             class_entries (mk_class_def n d body) = ([n], [])
                             /\ In n (without_example tree)))
    /\ (forall n d body body',
           class_entries (mk_class_def n d body)
           = class_entries (mk_class_def n d body')).
Proof.
  intros tree. split; [|split].
  - intros f Hin Hpub. apply in_function_nodes in Hin.
    pose proof (function_entries_eq f) as He. rewrite Hpub in He.
    split; intros Hex.
    + apply lacks_example_false in Hex. rewrite Hex in He. split; [exact He|].
      apply in_with_example. left. exists f. rewrite He. simpl. auto.
    + apply lacks_example_true in Hex. rewrite Hex in He. split; [exact He|].
      apply in_without_example. left. exists f. rewrite He. simpl. auto.
  - intros n d body Hin _.
    assert (Hc : In (mk_class_def n d body) (class_nodes tree))
      by now apply in_class_nodes.
    pose proof (class_entries_eq (mk_class_def n d body)) as He. simpl in He.
    split; intros Hex.
    + apply lacks_example_false in Hex. rewrite Hex in He. split; [exact He|].
      apply in_with_example. right. left. exists (mk_class_def n d body).
      rewrite He. simpl. auto.
    + apply lacks_example_true in Hex. rewrite Hex in He. split; [exact He|].
      apply in_without_example. right. left. exists (mk_class_def n d body).
      rewrite He. simpl. auto.
  - intros n d body body'. now rewrite !class_entries_eq.
Qed.

Lemma function_and_class_rule_witness :
  In "foo" (with_example foo_bar_module)
  /\ In "bar" (without_example foo_bar_module)
  /\ In "Widget" (with_example foo_bar_module).
Proof.
  destruct (function_and_class_rule foo_bar_module) as [Hf [Hc _]].
  split; [|split].
  - apply (Hf (mk_function_def "foo" [] (Some "Example: foo()"))).
    + simpl. auto.
    + reflexivity.
    + now exists "Example: foo()", "", ": foo()".
  - apply (Hf (mk_function_def "bar" [] None)).
    + simpl. auto.
    + reflexivity.
    + intros [d [b [a [H _]]]]. discriminate.
  - apply (Hc "Widget" (Some "A widget.  Examples: Widget()")
             [ FunctionDef (mk_function_def "run" [] None) ]).
    + simpl. auto.
    + reflexivity.
    + now exists "A widget.  Examples: Widget()", "A widget.  ", "s: Widget()".
Defined.

(** ** Property setters *)

(** What a method with a [property] or [<value>.setter] decorator adds
    to the missing and to the covered list. *)
Lemma marker_entries : forall m,
    existsb is_marker (decorator_list m) = true ->
    (has_example (get_docstring m) ->
     method_entries m = ([], repeat (name m) (count is_marker m)))
    /\ (~ has_example (get_docstring m) ->
        method_entries m
        = (repeat (name m) (count is_property m), repeat (name m) (count is_setter m))).
Proof.
  intros m Hmk. rewrite method_entries_eq, Hmk, decorator_loop_eq. cbn [fst].
  split; intros H.
  - apply lacks_example_false in H. now rewrite H.
  - apply lacks_example_true in H. now rewrite H.
Qed.

(** C3, as stated, fails: after the setter rule has put the method in
    the covered list, the getter rule is still applied to a method that
    also carries [property], and puts it in the missing list. *)
Lemma setter_rule_counterexample :
  existsb is_setter (decorator_list setter_then_getter) = true
  /\ method_entries setter_then_getter = (["x"], ["x"])
  /\ with_example setter_and_getter_on_one_method = ["C"; "x"]
  /\ without_example setter_and_getter_on_one_method = ["x"].
Proof. repeat split; reflexivity. Qed.

(** C3, amended.  A method with a decorator [<value>.setter] is added to
    the covered list, whatever its documentation string is, and its
    iteration ends with the decorator loop: the test on the name and the
    default test are not applied to it.  The only other rule applied to
    it is that of the getter, once for each bare [property] decorator it
    carries: with a documentation string that contains "Example" it is
    added to the covered list only, once per [property] or setter
    decorator; without, once to the covered list per setter decorator
    and once to the missing list per [property] decorator. *)
Theorem setter_rule : forall tree n d body m,
    In (ClassDef n d body) tree ->
    In (FunctionDef m) body ->
    existsb is_setter (decorator_list m) = true ->
    In (name m) (snd (method_entries m))
    /\ In (name m) (with_example tree)
    /\ (forall st, method_step st m = fst (decorator_loop m st))
    /\ (has_example (get_docstring m) ->
        method_entries m = ([], repeat (name m) (count is_marker m)))
    /\ (~ has_example (get_docstring m) ->
        method_entries m
        = (repeat (name m) (count is_property m), repeat (name m) (count is_setter m))).
Proof.
  intros tree n d body m Hc Hm Hs.
  assert (Hmk : existsb is_marker (decorator_list m) = true)
    by (apply existsb_marker_of; auto).
  pose proof (existsb_count is_setter m Hs) as H1.
  pose proof (count_marker m) as H2.
  destruct (marker_entries m Hmk) as [Hyes Hno].
  assert (Hin : In (name m) (snd (method_entries m))).
  { destruct (lacks_example (get_docstring m)) eqn:E.
    - apply lacks_example_true in E. rewrite (Hno E). cbn [snd]. apply in_repeat. lia.
    - apply lacks_example_false in E. rewrite (Hyes E). cbn [snd]. apply in_repeat. lia. }
  split; [exact Hin | split; [|split; [|split]]].
  - apply in_with_example. right. right. exists m. split; [|exact Hin].
    apply in_method_definitions. now exists n, d, body.
  - now apply method_step_marker.
  - exact Hyes.
  - exact Hno.
Qed.

Lemma setter_rule_witness :
  In "x"%string (with_example getter_setter_pair)
  /\ method_entries (mk_function_def "x" [Attribute (Name "x") "setter"] None)
     = ([], ["x"%string]).
Proof.
  destruct (setter_rule getter_setter_pair "C" (Some "Example: C()")
              [ FunctionDef (mk_function_def "x" [Name "property"] (Some "Example: c.x"));
                FunctionDef (mk_function_def "x" [Attribute (Name "x") "setter"] None) ]
              (mk_function_def "x" [Attribute (Name "x") "setter"] None))
    as [_ [H1 [_ [_ H2]]]].
  - simpl. auto.
  - simpl. auto.
  - reflexivity.
  - split; [exact H1|]. apply H2. intros [doc [b [a [H _]]]]. discriminate.
Defined.

(** ** Property getters *)

(** C4, as stated, fails: a method with the bare decorator [property]
    and no documentation string is added to the covered list when it
    also carries a [<value>.setter] decorator. *)
Lemma getter_rule_counterexample :
  In (FunctionDef doubly_decorated) [FunctionDef doubly_decorated]
  /\ existsb is_property (decorator_list doubly_decorated) = true
  /\ ~ has_example (get_docstring doubly_decorated)
  /\ method_entries doubly_decorated = (["x"], ["x"])
  /\ with_example getter_and_setter_on_one_method = ["C"; "x"]
  /\ without_example getter_and_setter_on_one_method = ["x"].
Proof.
  repeat split; try reflexivity.
  - simpl. auto.
  - intros [d [b [a [H _]]]]. discriminate.
Qed.

(** C4, amended.  A method with a bare [property] decorator is added to
    the covered list, and not to the missing one, when its documentation
    string exists and contains "Example", and to the missing list
    otherwise; it is in the covered list exactly when it has such a
    documentation string or also carries a [<value>.setter] decorator.
    Either way its iteration ends with the decorator loop, so the test
    on the name and the default test are not applied to it. *)
Theorem getter_rule : forall tree n d body m,
    In (ClassDef n d body) tree ->
    In (FunctionDef m) body ->
    existsb is_property (decorator_list m) = true ->
    (has_example (get_docstring m) ->
     method_entries m = ([], repeat (name m) (count is_marker m))
     /\ In (name m) (with_example tree))
    /\ (~ has_example (get_docstring m) ->
        method_entries m
        = (repeat (name m) (count is_property m), repeat (name m) (count is_setter m))
        /\ In (name m) (without_example tree))
    /\ 1 <= count is_property m
    /\ (forall st, method_step st m = fst (decorator_loop m st))
    /\ (In (name m) (snd (method_entries m))
        <-> has_example (get_docstring m)
            \/ existsb is_setter (decorator_list m) = true).
Proof.
  intros tree n d body m Hc Hm Hp.
  assert (Hmk : existsb is_marker (decorator_list m) = true)
    by (apply existsb_marker_of; auto).
  assert (Hdef : In m (method_definitions tree))
    by (apply in_method_definitions; now exists n, d, body).
  pose proof (existsb_count is_property m Hp) as H1.
  pose proof (count_marker m) as H2.
  destruct (marker_entries m Hmk) as [Hyes Hno].
  split; [|split; [|split; [|split]]].
  - intros Hex. split; [now apply Hyes|].
    apply in_with_example. right. right. exists m.
    split; [exact Hdef|]. rewrite (Hyes Hex). cbn [snd]. apply in_repeat. lia.
  - intros Hex. split; [now apply Hno|].
    apply in_without_example. right. right. exists m.
    split; [exact Hdef|]. rewrite (Hno Hex). cbn [fst]. now apply in_repeat.
  - exact H1.
  - now apply method_step_marker.
  - destruct (lacks_example (get_docstring m)) eqn:E.
    + apply lacks_example_true in E. rewrite (Hno E). cbn [snd]. split.
      * intros Hin. right.
        destruct (existsb is_setter (decorator_list m)) eqn:Es; [reflexivity|].
        rewrite (count_none is_setter m Es) in Hin. contradiction.
      * intros [Hex | Hs]; [contradiction|].
        apply in_repeat. now apply existsb_count.
    + apply lacks_example_false in E. rewrite (Hyes E). cbn [snd]. split.
      * intros _. now left.
      * intros _. apply in_repeat. lia.
Qed.

Lemma getter_rule_witness :
  method_entries (mk_function_def "x" [Name "property"] (Some "Example: c.x"))
  = ([], ["x"%string])
  /\ In "x"%string (with_example getter_setter_pair).
Proof.
  destruct (getter_rule getter_setter_pair "C" (Some "Example: C()")
              [ FunctionDef (mk_function_def "x" [Name "property"] (Some "Example: c.x"));
                FunctionDef (mk_function_def "x" [Attribute (Name "x") "setter"] None) ]
              (mk_function_def "x" [Name "property"] (Some "Example: c.x")))
    as [H _].
  - simpl. auto.
  - simpl. auto.
  - reflexivity.
  - apply H. now exists "Example: c.x"%string, ""%string, ": c.x"%string.
Defined.

(** ** Private names *)

Lemma function_entries_in : forall f x,
    In x (fst (function_entries f)) \/ In x (snd (function_entries f)) ->
    x = name f /\ Py.startswith (name f) "_" = false.
Proof.
  intros f x. rewrite function_entries_eq.
  destruct (Py.startswith (name f) "_"); [simpl; tauto|].
  destruct (lacks_example (get_docstring f)); simpl; intuition.
Qed.

Lemma class_entries_in : forall c x,
    In x (fst (class_entries c)) \/ In x (snd (class_entries c)) -> x = cname c.
Proof.
  intros c x. rewrite class_entries_eq.
  destruct (lacks_example (cdocstring c)); simpl; intuition.
Qed.

Lemma method_entries_in : forall m x,
    In x (fst (method_entries m)) \/ In x (snd (method_entries m)) ->
    x = name m
    /\ (existsb is_marker (decorator_list m) = true
        \/ Py.startswith (name m) "_" = false).
Proof.
  intros m x. rewrite method_entries_eq.
  destruct (existsb is_marker (decorator_list m)).
  - rewrite decorator_loop_eq. cbn [fst].
    destruct (lacks_example (get_docstring m)); cbn [fst snd];
      intros [H | H]; try (apply repeat_spec in H); try contradiction; auto.
  - destruct (Py.startswith (name m) "_"); [simpl; tauto|].
    destruct (lacks_example (get_docstring m)); simpl; intuition.
Qed.

(** C2, as stated, fails: a method whose name starts with an underscore
    and which carries the decorator [property] is classified; and the
    name of a private function is listed when a class bears it. *)
Lemma private_exempt_counterexample :
  (Py.startswith "_x" "_" = true
   /\ In "_x" (without_example private_property))
  /\ (Py.startswith "_f" "_" = true
      /\ In (FunctionDef (mk_function_def "_f" [] None)) private_class_and_function
      /\ In "_f" (without_example private_class_and_function)).
Proof. repeat split; simpl; auto. Qed.

(** C2, amended.  A name that starts with an underscore is in neither
    list of its module, provided that no class of the module bears it
    and that no method of that name carries a [property] or
    [<value>.setter] decorator: private functions, and private methods
    without such a decorator, add nothing. *)
Theorem private_exempt : forall tree n,
    Py.startswith n "_" = true ->
    (forall d body, ~ In (ClassDef n d body) tree) ->
    (forall m, In m (method_definitions tree) -> name m = n ->
               existsb is_marker (decorator_list m) = false) ->
    ~ In n (with_example tree) /\ ~ In n (without_example tree).
Proof.
  intros tree n Hpriv Hclass Hmeth.
  assert (Hf : forall f, ~ (In n (fst (function_entries f))
                            \/ In n (snd (function_entries f)))).
  { intros f H. apply function_entries_in in H. destruct H as [-> H]. congruence. }
  assert (Hc : forall c, In c (class_nodes tree) ->
                         ~ (In n (fst (class_entries c)) \/ In n (snd (class_entries c)))).
  { intros c Hin H. apply class_entries_in in H. subst n.
    apply in_class_nodes in Hin. exact (Hclass _ _ Hin). }
  assert (Hm : forall m, In m (method_definitions tree) ->
                         ~ (In n (fst (method_entries m)) \/ In n (snd (method_entries m)))).
  { intros m Hin H. apply method_entries_in in H. destruct H as [-> [H | H]].
    - rewrite (Hmeth m Hin eq_refl) in H. discriminate.
    - congruence. }
  split; intros H.
  - apply in_with_example in H.
    destruct H as [[f [_ H]] | [[c [Hin H]] | [m [Hin H]]]].
    + apply (Hf f). auto.
    + apply (Hc c Hin). auto.
    + apply (Hm m Hin). auto.
  - apply in_without_example in H.
    destruct H as [[f [_ H]] | [[c [Hin H]] | [m [Hin H]]]].
    + apply (Hf f). auto.
    + apply (Hc c Hin). auto.
    + apply (Hm m Hin). auto.
Qed.

Lemma private_exempt_witness :
  ~ In "_helper" (with_example private_helpers)
  /\ ~ In "_helper" (without_example private_helpers).
Proof.
  apply (private_exempt private_helpers "_helper").
  - reflexivity.
  - intros d body H. simpl in H.
    destruct H as [H | [H | H]]; try discriminate; exact H.
  - intros m H _. simpl in H.
    destruct H as [<- | [<- | H]]; try reflexivity; contradiction.
Defined.

(** ** No name twice *)

(** How often a declaration adds its name: a function once unless it is
    private, a class once, a method once per [property] or
    [<value>.setter] decorator, or once when it has none and is not
    private. *)
Section Weights.

Variable A : Type.
Variable nm : A -> string.
Variable e : A -> lists.
Variable w : A -> nat.
Variable listed : A -> bool.

Hypothesis entries_repeat : forall a, fst (e a) ++ snd (e a) = repeat (nm a) (w a).
Hypothesis listed_weight : forall a, listed a = true <-> 1 <= w a.

Lemma count_occ_one : forall a x,
    count_occ string_dec (snd (e a)) x + count_occ string_dec (fst (e a)) x
    = count_occ string_dec (repeat (nm a) (w a)) x.
Proof. intros a x. rewrite <- entries_repeat, count_occ_app. lia. Qed.

Lemma listed_count_le : forall (l : list A) (x : string),
    count_occ string_dec (map nm (filter listed l)) x
    <= count_occ string_dec (flat_map (fun a => snd (e a)) l) x
       + count_occ string_dec (flat_map (fun a => fst (e a)) l) x.
Proof.
  induction l as [|a l IH]; intros x; [simpl; lia|].
  cbn [flat_map filter]. rewrite !count_occ_app.
  pose proof (count_occ_one a x) as Ha. specialize (IH x).
  destruct (listed a) eqn:El.
  - apply listed_weight in El. cbn [map].
    destruct (string_dec (nm a) x) as [E | E].
    + rewrite count_occ_cons_eq by exact E.
      rewrite count_occ_repeat_eq in Ha by (symmetry; exact E). lia.
    + rewrite count_occ_cons_neq by exact E. lia.
  - lia.
Qed.

Lemma listed_count_eq : forall (l : list A) (x : string),
    (forall a, In a l -> w a <= 1) ->
    count_occ string_dec (flat_map (fun a => snd (e a)) l) x
    + count_occ string_dec (flat_map (fun a => fst (e a)) l) x
    = count_occ string_dec (map nm (filter listed l)) x.
Proof.
  induction l as [|a l IH]; intros x H; [reflexivity|].
  cbn [flat_map filter]. rewrite !count_occ_app.
  pose proof (count_occ_one a x) as Ha.
  assert (IH' := IH x (fun b Hb => H b (or_intror Hb))).
  assert (Hw := H a (or_introl eq_refl)).
  destruct (listed a) eqn:El.
  - apply listed_weight in El. assert (w a = 1) as Hw1 by lia. rewrite Hw1 in Ha.
    cbn [map]. destruct (string_dec (nm a) x) as [E | E].
    + rewrite count_occ_cons_eq by exact E.
      rewrite count_occ_repeat_eq in Ha by (symmetry; exact E). lia.
    + rewrite count_occ_cons_neq by exact E.
      rewrite count_occ_repeat_neq in Ha by (intros E'; apply E; now symmetry). lia.
  - assert (w a = 0) as Hw0.
    { destruct (w a) as [|k] eqn:Ek; [reflexivity|].
      assert (listed a = true) by (apply listed_weight; lia). congruence. }
    rewrite Hw0 in Ha. cbn [repeat count_occ] in Ha. lia.
Qed.

Lemma weight_count_le : forall (l : list A) (a : A),
    In a l ->
    w a <= count_occ string_dec (flat_map (fun b => snd (e b)) l) (nm a)
           + count_occ string_dec (flat_map (fun b => fst (e b)) l) (nm a).
Proof.
  induction l as [|b l IH]; intros a Ha; [contradiction|].
  cbn [flat_map]. rewrite !count_occ_app. destruct Ha as [-> | Ha].
  - pose proof (count_occ_one a (nm a)) as H.
    rewrite count_occ_repeat_eq in H by reflexivity. lia.
  - specialize (IH a Ha). lia.
Qed.

End Weights.

Lemma function_entries_repeat : forall f,
    fst (function_entries f) ++ snd (function_entries f)
    = repeat (name f) (function_weight f).
Proof.
  intros f. rewrite function_entries_eq. unfold function_weight.
  destruct (Py.startswith (name f) "_"); [reflexivity|].
  now destruct (lacks_example (get_docstring f)).
Qed.

Lemma class_entries_repeat : forall c,
    fst (class_entries c) ++ snd (class_entries c) = repeat (cname c) (class_weight c).
Proof.
  intros c. rewrite class_entries_eq.
  now destruct (lacks_example (cdocstring c)).
Qed.

Lemma method_entries_repeat : forall m,
    fst (method_entries m) ++ snd (method_entries m)
    = repeat (name m) (method_weight m).
Proof.
  intros m. rewrite method_entries_eq. unfold method_weight.
  destruct (existsb is_marker (decorator_list m)) eqn:Hmk.
  - rewrite decorator_loop_eq. cbn [fst].
    destruct (lacks_example (get_docstring m)); cbn [fst snd app].
    + now rewrite <- repeat_app, count_marker.
    + reflexivity.
  - destruct (Py.startswith (name m) "_"); [reflexivity|].
    now destruct (lacks_example (get_docstring m)).
Qed.

Lemma function_listed_weight : forall f,
    function_listed f = true <-> 1 <= function_weight f.
Proof.
  intros f. unfold function_listed, function_weight.
  destruct (Py.startswith (name f) "_"); simpl; split; (lia || discriminate || auto).
Qed.

Lemma class_listed_weight : forall c, class_listed c = true <-> 1 <= class_weight c.
Proof. intros c. unfold class_listed, class_weight. split; auto. Qed.

Lemma method_listed_weight : forall m,
    method_listed m = true <-> 1 <= method_weight m.
Proof.
  intros m. unfold method_listed, method_weight.
  destruct (existsb is_marker (decorator_list m)) eqn:Hmk; cbn [orb].
  - split; [intros _; now apply existsb_count | reflexivity].
  - destruct (Py.startswith (name m) "_"); simpl; split; (lia || discriminate || auto).
Qed.

Lemma filter_all : forall (A : Type) (l : list A), filter (fun _ => true) l = l.
Proof. induction l as [|a l IH]; simpl; [reflexivity | now rewrite IH]. Qed.

(** C1, as stated, fails: the getter and the setter of a property bear
    the same name, which is then listed twice; and one method with both
    a [property] and a [<value>.setter] decorator is put in both
    lists. *)
Lemma no_name_twice_counterexample :
  (with_example getter_setter_pair = ["C"; "x"; "x"]
   /\ ~ NoDup (with_example getter_setter_pair ++ without_example getter_setter_pair))
  /\ (method_definitions getter_and_setter_on_one_method = [doubly_decorated]
      /\ In "x" (with_example getter_and_setter_on_one_method)
      /\ In "x" (without_example getter_and_setter_on_one_method)).
Proof.
  split; [split; [reflexivity|] | repeat split; simpl; auto].
  intros H. inversion H as [|a l _ H' E]; subst.
  inversion H' as [|b l' Hx _ E]; subst.
  apply Hx. simpl. auto.
Qed.

(** C1, amended.  Every name occurs at most once in the covered and
    missing lists taken together (in at most one of them, and there
    once) exactly when the declarations that are listed, which leaves
    out the exempt private functions and methods, bear pairwise distinct
    names and no method carries more than one decorator that is
    [property] or [<value>.setter]. *)
Theorem no_name_twice : forall tree,
    NoDup (with_example tree ++ without_example tree)
    <-> NoDup (listed_names tree)
        /\ (forall m, In m (method_definitions tree) -> count is_marker m <= 1).
Proof.
  intros tree.
  pose proof (listed_count_le _ name function_entries function_weight function_listed
                function_entries_repeat function_listed_weight (function_nodes tree)) as Lf.
  pose proof (listed_count_le _ cname class_entries class_weight class_listed
                class_entries_repeat class_listed_weight (class_nodes tree)) as Lc.
  pose proof (listed_count_le _ name method_entries method_weight method_listed
                method_entries_repeat method_listed_weight (method_definitions tree)) as Lm.
  unfold class_listed in Lc. rewrite filter_all in Lc.
  split.
  - intros H. pose proof (proj1 (NoDup_count_occ string_dec _) H) as Hc.
    rewrite with_example_entries, without_example_entries in Hc. split.
    + apply (NoDup_count_occ string_dec). intros x. unfold listed_names.
      specialize (Hc x). specialize (Lf x). specialize (Lc x). specialize (Lm x).
      rewrite !count_occ_app in *. lia.
    + intros m Hm. specialize (Hc (name m)). rewrite !count_occ_app in Hc.
      pose proof (weight_count_le _ name method_entries method_weight
                    method_entries_repeat (method_definitions tree) m Hm) as Hw.
      unfold method_weight in Hw.
      destruct (existsb is_marker (decorator_list m)) eqn:Hmk; [lia|].
      rewrite (count_none is_marker m Hmk). lia.
  - intros [Hn Hk]. apply (NoDup_count_occ string_dec). intros x.
    pose proof (proj1 (NoDup_count_occ string_dec _) Hn x) as Hx.
    unfold listed_names in Hx.
    rewrite with_example_entries, without_example_entries.
    rewrite !count_occ_app in *.
    pose proof (listed_count_eq _ name function_entries function_weight function_listed
                  function_entries_repeat function_listed_weight (function_nodes tree) x)
      as Ef.
    pose proof (listed_count_eq _ cname class_entries class_weight class_listed
                  class_entries_repeat class_listed_weight (class_nodes tree) x) as Ec.
    pose proof (listed_count_eq _ name method_entries method_weight method_listed
                  method_entries_repeat method_listed_weight (method_definitions tree) x)
      as Em.
    unfold class_listed in Ec. rewrite filter_all in Ec.
    rewrite <- Ef, <- Ec, <- Em in Hx; [lia | | | ].
    + intros m Hm. unfold method_weight.
      destruct (existsb is_marker (decorator_list m)); [now apply Hk|].
      destruct (Py.startswith (name m) "_"); lia.
    + intros c _. unfold class_weight. lia.
    + intros f _. unfold function_weight. destruct (Py.startswith (name f) "_"); lia.
Qed.

Lemma no_name_twice_witness :
  NoDup (with_example two_initializers ++ without_example two_initializers).
Proof.
  apply (no_name_twice two_initializers). split.
  - cbv [listed_names two_initializers]. simpl.
    repeat constructor; simpl; intuition discriminate.
  - intros m H. simpl in H.
    destruct H as [<- | [<- | [<- | []]]]; unfold count; simpl; lia.
Defined.

(** ** Asynchronous definitions *)

Lemma function_nodes_erase_node : forall body,
    function_nodes (map erase_node body) = function_nodes body.
Proof.
  induction body as [|node body IH]; [reflexivity|].
  unfold function_nodes in *. cbn [map flat_map]. rewrite IH.
  now destruct node.
Qed.

Lemma function_nodes_erase_async : forall tree,
    function_nodes (erase_async tree) = function_nodes tree.
Proof.
  induction tree as [|node tree IH]; [reflexivity|].
  unfold function_nodes, erase_async in *. cbn [map flat_map]. rewrite IH.
  now destruct node.
Qed.

Lemma class_nodes_erase_async : forall tree,
    class_nodes (erase_async tree)
    = map (fun c => mk_class_def (cname c) (cdocstring c) (map erase_node (cbody c)))
        (class_nodes tree).
Proof.
  induction tree as [|node tree IH]; [reflexivity|].
  unfold class_nodes, erase_async in *. cbn [map flat_map]. rewrite IH.
  destruct node; cbn [app map erase_node]; reflexivity.
Qed.

Lemma classify_erase_async : forall tree,
    without_example (erase_async tree) = without_example tree
    /\ with_example (erase_async tree) = with_example tree.
Proof.
  intros tree.
  rewrite !without_example_entries, !with_example_entries, !method_definitions_eq.
  rewrite function_nodes_erase_async, class_nodes_erase_async, !flat_map_concat_map.
  rewrite !map_map. cbn [cbody].
  assert (Hm : map (fun c => function_nodes (map erase_node (cbody c))) (class_nodes tree)
               = map (fun c => function_nodes (cbody c)) (class_nodes tree))
    by (apply map_ext; intros c; apply function_nodes_erase_node).
  rewrite Hm.
  assert (Hc : forall c,
             class_entries (mk_class_def (cname c) (cdocstring c) (map erase_node (cbody c)))
             = class_entries c) by (intros c; now rewrite !class_entries_eq).
  assert (Hc1 : map (fun c => fst (class_entries
                       (mk_class_def (cname c) (cdocstring c) (map erase_node (cbody c)))))
                  (class_nodes tree)
                = map (fun c => fst (class_entries c)) (class_nodes tree))
    by (apply map_ext; intros c; now rewrite Hc).
  assert (Hc2 : map (fun c => snd (class_entries
                       (mk_class_def (cname c) (cdocstring c) (map erase_node (cbody c)))))
                  (class_nodes tree)
                = map (fun c => snd (class_entries c)) (class_nodes tree))
    by (apply map_ext; intros c; now rewrite Hc).
  now rewrite Hc1, Hc2.
Qed.

(** Every listed name is the name of a function, a class or a method
    that one of the loops ranges over. *)
Lemma listed_names_declared : forall tree x,
    In x (with_example tree) \/ In x (without_example tree) ->
    In x (declared_names tree).
Proof.
  intros tree x H. unfold declared_names. rewrite !in_app_iff, !in_map_iff.
  rewrite in_with_example, in_without_example in H.
  destruct H as [[[f [Hin H]] | [[c [Hin H]] | [m [Hin H]]]]
                | [[f [Hin H]] | [[c [Hin H]] | [m [Hin H]]]]].
  - left. exists f. split; [|exact Hin].
    symmetry. apply (function_entries_in f x). auto.
  - right. left. exists c. split; [|exact Hin].
    symmetry. apply (class_entries_in c x). auto.
  - right. right. exists m. split; [|exact Hin].
    symmetry. apply (method_entries_in m x). auto.
  - left. exists f. split; [|exact Hin].
    symmetry. apply (function_entries_in f x). auto.
  - right. left. exists c. split; [|exact Hin].
    symmetry. apply (class_entries_in c x). auto.
  - right. right. exists m. split; [|exact Hin].
    symmetry. apply (method_entries_in m x). auto.
Qed.

(** C10.  Asynchronous definitions are never classified: the two lists
    of a module are those of the module with every [async def] replaced
    by a statement that defines nothing; and the name of an [async def],
    at top level or in a class, is in neither list unless a function, a
    class or a method that is not asynchronous bears it too. *)
Theorem async_not_classified : forall tree,
    (without_example (erase_async tree) = without_example tree
     /\ with_example (erase_async tree) = with_example tree)
    /\ (forall a,
           In (AsyncFunctionDef a) tree
           \/ (exists n d body, In (ClassDef n d body) tree
                                /\ In (AsyncFunctionDef a) body) ->
           ~ In (name a) (declared_names tree) ->
           ~ In (name a) (with_example tree)
           /\ ~ In (name a) (without_example tree)).
Proof.
  intros tree. split; [apply classify_erase_async|].
  intros a _ Hfresh.
  split; intros H; apply Hfresh; apply listed_names_declared; auto.
Qed.

Lemma async_not_classified_witness :
  (~ In "fetch" (with_example async_module)
   /\ ~ In "fetch" (without_example async_module))
  /\ (~ In "send" (with_example async_module)
      /\ ~ In "send" (without_example async_module)).
Proof.
  destruct (async_not_classified async_module) as [_ H]. split.
  - apply (H (mk_function_def "fetch" [] (Some "Example: await fetch()"))).
    + left. simpl. auto.
    + simpl. intuition discriminate.
  - apply (H (mk_function_def "send" [Name "property"] None)).
    + right. exists "Client", (Some "Example: Client()"),
        [ AsyncFunctionDef (mk_function_def "send" [Name "property"] None);
          FunctionDef (mk_function_def "close" [] None) ].
      simpl. auto.
    + simpl. intuition discriminate.
Defined.

(** * The statistics *)

Lemma len_nonneg : forall (A : Type) (l : list A), (0 <= len l)%Z.
Proof. intros A l. unfold len. lia. Qed.

Lemma stats_of_row : forall shown (covered missing : list string) total,
    total = (len missing + len covered)%Z ->
    stats_of covered missing
      (mk_row shown total (len missing)
         (percentage_covered (total - len missing)%Z total)).
Proof.
  intros shown covered missing total ->.
  unfold stats_of. cbn [row_total row_missing row_percentage].
  replace (len missing + len covered - len missing)%Z with (len covered) by lia.
  unfold percentage_covered. split; [lia | split; [reflexivity | split]].
  - intros H. destruct (Z.eqb_spec (len missing + len covered) 0); [lia | reflexivity].
  - intros ->. reflexivity.
Qed.

Lemma dict_get_set : forall (V : Type) (d : dict V) k v,
    dict_get (dict_set d k v) k = Return v.
Proof.
  intros V d k v. induction d as [|[k' v'] d IH]; simpl.
  - now rewrite String.eqb_refl.
  - destruct (String.eqb k' k) eqn:E; simpl; rewrite E; [reflexivity | exact IH].
Qed.

(** An iteration raises only where the name of the module does. *)
Lemma module_step_eq : forall directory_path st file_name tree,
    module_step directory_path st (file_name, tree)
    = match module_name directory_path file_name with
      | inl e => Raise (StrError e)
      | inr shown =>
          Return (mk_state
                    (dict_set (all_methods_with_example st) file_name (with_example tree))
                    (dict_set (all_methods_without_example st) file_name
                       (without_example tree))
                    (printed st ++
                       [mk_row shown
                          (len (without_example tree) + len (with_example tree))%Z
                          (len (without_example tree))
                          (percentage_covered
                             ((len (without_example tree) + len (with_example tree))
                              - len (without_example tree))%Z
                             (len (without_example tree) + len (with_example tree))%Z)]))
      end.
Proof.
  intros directory_path st file_name tree. unfold module_step.
  now rewrite !dict_get_set.
Qed.

Lemma module_loop_eq : forall parse directory_path files trees names,
    Forall2 (fun file_name tree => parse file_name = Return tree) files trees ->
    Forall2 (fun file_name shown => module_name directory_path file_name = inr shown)
      files names ->
    forall st,
    exists rows,
      module_loop parse directory_path st files
      = Return (mk_state
                  (store with_example (all_methods_with_example st) (combine files trees))
                  (store without_example (all_methods_without_example st)
                     (combine files trees))
                  (printed st ++ rows))
      /\ map row_name rows = names
      /\ Forall2 (fun tree r => stats_of (with_example tree) (without_example tree) r)
           trees rows.
Proof.
  intros parse directory_path files trees names H. revert names.
  induction H as [|file_name tree files trees Hparse _ IH]; intros names Hn st.
  - inversion Hn; subst. exists []. split; [|split; [reflexivity | constructor]].
    simpl. rewrite app_nil_r. now destruct st.
  - inversion Hn as [|? shown ? names' Hshown Hn']; subst.
    cbn [module_loop]. rewrite Hparse. cbn [bind].
    rewrite module_step_eq, Hshown. cbn [bind].
    match goal with |- context [module_loop parse directory_path ?st' files] =>
      destruct (IH names' Hn' st') as [rows [Hloop [Hnames Hrows]]] end.
    eexists (_ :: rows). split; [|split].
    + rewrite Hloop. cbn [all_methods_with_example all_methods_without_example printed].
      rewrite <- app_assoc. reflexivity.
    + cbn [map row_name]. now rewrite Hnames.
    + constructor; [|exact Hrows]. now apply stats_of_row.
Qed.

Lemma dict_set_fresh : forall (V : Type) (d : dict V) k v,
    ~ In k (map fst d) -> dict_set d k v = d ++ [(k, v)].
Proof.
  intros V d k v. induction d as [|[k' v'] d IH]; intros H; [reflexivity|].
  simpl in *. destruct (String.eqb_spec k' k) as [E | E].
  - exfalso. auto.
  - rewrite IH; [reflexivity | tauto].
Qed.

Lemma store_fresh : forall lists_of files d,
    NoDup (map fst d ++ map fst files) ->
    store lists_of d files
    = d ++ map (fun file => (fst file, lists_of (snd file))) files.
Proof.
  intros lists_of files. induction files as [|file files IH]; intros d H.
  - simpl. now rewrite app_nil_r.
  - unfold store in *. rewrite fold_left_cons.
    cbn [map] in H.
    rewrite dict_set_fresh
      by (apply NoDup_remove_2 in H; rewrite in_app_iff in H; tauto).
    rewrite IH.
    + rewrite <- app_assoc. reflexivity.
    + rewrite map_app, <- app_assoc. exact H.
Qed.

Lemma package_row_stats : forall st,
    stats_of (List.concat (dict_values (all_methods_with_example st)))
      (List.concat (dict_values (all_methods_without_example st)))
      (package_row st).
Proof.
  intros st. unfold package_row.
  set (w := List.concat (dict_values (all_methods_with_example st))).
  set (wo := List.concat (dict_values (all_methods_without_example st))).
  replace (len w + len wo)%Z with (len wo + len w)%Z by lia.
  pose proof (stats_of_row "Total" w wo (len wo + len w)%Z eq_refl) as H.
  unfold stats_of in *. cbn [row_total row_missing row_percentage] in *.
  destruct H as [H1 [H2 [H3 H4]]]. repeat split; auto; lia.
Qed.

Lemma map_fst_combine : forall (A B : Type) (R : A -> B -> Prop) l l',
    Forall2 R l l' -> map fst (combine l l') = l /\ map snd (combine l l') = l'.
Proof.
  intros A B R l l' H. induction H as [|a b l l' _ _ [IH1 IH2]]; [now split|].
  simpl. now rewrite IH1, IH2.
Qed.




(** * The source finder *)

(** ** The order of the result *)

Lemma ascii_compare_refl : forall a, Ascii.compare a a = Eq.
Proof. intros a. unfold Ascii.compare. apply N.compare_refl. Qed.

Lemma leb_lex_le : forall s t, String.leb s t = true <-> lex_le s t.
Proof.
  unfold String.leb. induction s as [|a s IH]; intros t.
  - split; [intros _; constructor | intros _; now destruct t].
  - destruct t as [|b t]; cbn [String.compare].
    + split; [discriminate | intros H; inversion H].
    + destruct (Ascii.compare a b) eqn:E.
      * apply Ascii.compare_eq_iff in E. subst b. rewrite IH. split.
        -- now constructor.
        -- intros H. inversion H; subst; [lia | assumption].
      * split; [intros _ | reflexivity].
        apply lex_less. now apply N.compare_lt_iff.
      * split; [discriminate|]. intros H. unfold Ascii.compare in E.
        apply N.compare_gt_iff in E. inversion H; subst; lia.
Qed.

Lemma lex_le_trans : forall s t u, lex_le s t -> lex_le t u -> lex_le s u.
Proof.
  intros s t u H. revert u. induction H as [t | a b s t Hab | a s t Hst IH]; intros u Htu.
  - constructor.
  - inversion Htu; subst.
    + apply lex_less. lia.
    + now apply lex_less.
  - inversion Htu; subst.
    + now apply lex_less.
    + apply lex_same. now apply IH.
Qed.

Lemma Sorted_weaken : forall (A : Type) (R1 R2 : A -> A -> Prop) (l : list A),
    (forall x y, R1 x y -> R2 x y) -> Sorted R1 l -> Sorted R2 l.
Proof.
  intros A R1 R2 l HR H. induction H as [|a l Hl IH Hhd]; constructor.
  - exact IH.
  - destruct Hhd; constructor. now apply HR.
Qed.

Lemma sorted_ascending : forall l, StronglySorted lex_le (sorted l).
Proof.
  intros l. apply Sorted_StronglySorted.
  - intros s t u. apply lex_le_trans.
  - apply (Sorted_weaken _ (fun x y => is_true (StrOrder.leb x y))).
    + intros x y H. now apply leb_lex_le.
    + apply StrSort.Sorted_sort.
Qed.

Lemma sorted_permutation : forall l, Permutation l (sorted l).
Proof. intros l. apply StrSort.Permuted_sort. Qed.

(** C8.  The paths [find_files] returns are in ascending lexicographic
    order: each path is below or equal to every path after it. *)
Theorem find_files_sorted : forall directory_path entries recursive found,
    find_files directory_path entries recursive = Return found ->
    StronglySorted lex_le found.
Proof.
  intros directory_path entries recursive found. unfold find_files.
  destruct (os_listdir entries); [discriminate|].
  destruct (modules directory_path entries recursive); [discriminate|].
  intros H. injection H as <-. apply sorted_ascending.
Qed.

Lemma find_files_sorted_witness :
  find_files "pkg" example_directory true = Return ["pkg/b.py"; "pkg/sub/a.py"]
  /\ StronglySorted lex_le ["pkg/b.py"; "pkg/sub/a.py"].
Proof.
  split; [reflexivity|].
  apply (find_files_sorted "pkg" example_directory true). reflexivity.
Defined.

(** ** Failure *)

(** [find_files] raises, and then [FileNotFoundError], exactly when the
    directory has no entry or the list [modules] is empty; otherwise it
    returns the paths of [modules]. *)
Lemma find_files_raises_iff : forall directory_path entries recursive,
    ((exists e, find_files directory_path entries recursive = Raise e)
     <-> (os_listdir entries = []
          \/ modules directory_path entries recursive = []))
    /\ (forall e, find_files directory_path entries recursive = Raise e ->
                  exists message, e = FileNotFoundError message)
    /\ (~ (os_listdir entries = []
           \/ modules directory_path entries recursive = []) ->
        exists found,
          find_files directory_path entries recursive = Return found
          /\ found <> []
          /\ Permutation (modules directory_path entries recursive) found).
Proof.
  intros directory_path entries recursive. unfold find_files.
  destruct (os_listdir entries) as [|n ns].
  - split; [|split].
    + split; [auto | intros _; eexists; reflexivity].
    + intros e H. injection H as <-. eexists. reflexivity.
    + intros H. exfalso. auto.
  - destruct (modules directory_path entries recursive) as [|p ps] eqn:Hm.
    + split; [|split].
      * split; [auto | intros _; eexists; reflexivity].
      * intros e H. injection H as <-. eexists. reflexivity.
      * intros H. exfalso. auto.
    + split; [|split].
      * split; [intros [e H]; discriminate | intros [H | H]; discriminate].
      * intros e H. discriminate.
      * intros _. exists (sorted (p :: ps)). split; [reflexivity|].
        pose proof (sorted_permutation (p :: ps)) as HP. split; [|exact HP].
        intros E. rewrite E in HP. apply Permutation_sym, Permutation_nil in HP.
        discriminate.
Qed.

(** C6 (the code at the failing inputs).  With the file [my__init__.py]
    alone in the directory, a file with the extension that is not the
    package initializer is left after the filters, yet [find_files]
    raises; with an empty directory named [x.py] alone, no file is left,
    yet the recursive search returns a path, that of the directory. *)
Lemma find_files_error :
  find_files "pkg" [ File "my__init__.py" ] false
  = Raise (FileNotFoundError "No python modules found in: pkg.")
  /\ find_files "pkg" [ File "my__init__.py" ] true
     = Raise (FileNotFoundError "No python modules found in: pkg.")
  /\ find_files "pkg" [ Dir "x.py" [] ] true = Return ["pkg/x.py"%string]
  /\ find_files "pkg" [ Dir "x.py" [] ] false
     = Raise (FileNotFoundError "No python modules found in: pkg.").
Proof. repeat split; reflexivity. Qed.

(** ** The package initializer *)

(** C7 (the code at the failing input).  A file named [my__init__.py]
    is left out in the recursive and in the flat search, although it is
    not the package initializer; alone in its directory, it makes
    [find_files] raise. *)
Lemma find_files_initializer_lookalike :
  find_files "pkg" initializer_lookalike true = Return ["pkg/a.py"]
  /\ find_files "pkg" initializer_lookalike false = Return ["pkg/a.py"]
  /\ find_files "pkg" [File "my__init__.py"] true
     = Raise (FileNotFoundError "No python modules found in: pkg.")
  /\ find_files "pkg" [File "my__init__.py"] false
     = Raise (FileNotFoundError "No python modules found in: pkg.").
Proof. repeat split; reflexivity. Qed.

(** * Further properties of the source finder *)

(** ** Strings *)

Lemma append_nil_r : forall s : string, (s ++ "")%string = s.
Proof. induction s as [|a s IH]; simpl; [reflexivity | now rewrite IH]. Qed.

Lemma append_assoc : forall s t u : string,
    ((s ++ t) ++ u)%string = (s ++ t ++ u)%string.
Proof. induction s as [|a s IH]; intros t u; simpl; [reflexivity | now rewrite IH]. Qed.


(** Two ways to cut the same string: one cut is inside the other's
    first or second part. *)
Lemma append_eq_split : forall a b c d : string,
    (a ++ b)%string = (c ++ d)%string ->
    (exists e, a = (c ++ e)%string /\ d = (e ++ b)%string)
    \/ (exists e, c = (a ++ e)%string /\ b = (e ++ d)%string).
Proof.
  induction a as [|x a IH]; intros b c d H.
  - right. exists c. now split.
  - destruct c as [|y c].
    + left. exists (String x a). now split.
    + simpl in H. injection H as -> H.
      destruct (IH b c d H) as [[e [-> ->]] | [e [-> ->]]].
      * left. now exists e.
      * right. now exists e.
Qed.

Lemma endswith_iff : forall s suf,
    Py.endswith s suf = true <-> exists before, s = (before ++ suf)%string.
Proof.
  induction s as [|a s IH]; intros suf; cbn [Py.endswith].
  - rewrite orb_false_r, String.eqb_eq. split.
    + intros <-. now exists ""%string.
    + intros [before H]. destruct before; [exact H | discriminate].
  - rewrite orb_true_iff, String.eqb_eq, IH. split.
    + intros [<- | [before ->]]; [now exists ""%string | now exists (String a before)].
    + intros [before H]. destruct before as [|b before].
      * left. exact H.
      * right. simpl in H. injection H as _ ->. now exists before.
Qed.

Lemma endswith_append : forall s suf, Py.endswith (s ++ suf) suf = true.
Proof. intros s suf. apply endswith_iff. now exists s. Qed.

Lemma endswith_trans : forall s t u,
    Py.endswith s t = true -> Py.endswith t u = true -> Py.endswith s u = true.
Proof.
  intros s t u Hst Htu. apply endswith_iff in Hst, Htu.
  destruct Hst as [b1 ->]. destruct Htu as [b2 ->].
  apply endswith_iff. exists (b1 ++ b2)%string. now rewrite append_assoc.
Qed.

(** A suffix without separator of [dir/name] is a suffix of [name]. *)
Lemma endswith_after_separator : forall dir name suf,
    Py.contains "/" suf = false ->
    Py.endswith (dir ++ "/" ++ name) suf = true ->
    Py.endswith name suf = true.
Proof.
  intros dir name suf Hsep H. apply endswith_iff in H. destruct H as [before H].
  apply endswith_iff.
  destruct (append_eq_split dir ("/" ++ name)%string before suf H)
    as [[e [_ He]] | [e [_ He]]].
  - exfalso. assert (Py.contains "/" suf = true); [|congruence].
    apply contains_iff. exists e, name. exact He.
  - destruct e as [|x e].
    + exfalso. assert (Py.contains "/" suf = true); [|congruence].
      apply contains_iff. exists ""%string, name. simpl in *. now rewrite <- He.
    + simpl in He. injection He as _ ->. now exists e.
Qed.

(** ** What the two searches find *)

Lemma entry_nested_ind : forall P : entry -> Prop,
    (forall n, P (File n)) ->
    (forall n children, Forall P children -> P (Dir n children)) ->
    forall e, P e.
Proof.
  intros P HF HD. fix IH 1. intros [n | n children].
  - apply HF.
  - apply HD. revert children. fix IHc 1. intros [|c children].
    + constructor.
    + constructor; [apply IH | apply IHc].
Qed.

Lemma rglob_entry_located : forall e root dir entries p,
    In e entries ->
    In p (rglob_entry root dir e) ->
    exists parts e',
      located dir entries parts e'
      /\ p = path_str root parts
      /\ Py.endswith (entry_name e') ".py" = true.
Proof.
  intros e. induction e as [n | n children IH] using entry_nested_ind;
    intros root dir entries p He Hp.
  - cbn [rglob_entry] in Hp. destruct (Py.endswith n ".py") eqn:E; [|contradiction].
    destruct Hp as [<- | []]. exists (dir ++ [n]), (File n).
    split; [|split; [reflexivity | exact E]].
    now apply (located_here dir entries (File n)).
  - cbn [rglob_entry] in Hp. apply in_app_or in Hp. destruct Hp as [Hp | Hp].
    + destruct (Py.endswith n ".py") eqn:E; [|contradiction].
      destruct Hp as [<- | []]. exists (dir ++ [n]), (Dir n children).
      split; [|split; [reflexivity | exact E]].
      now apply (located_here dir entries (Dir n children)).
    + apply in_flat_map in Hp. destruct Hp as [c [Hc Hp]].
      rewrite Forall_forall in IH.
      destruct (IH c Hc root (dir ++ [n]) children p Hc Hp) as [parts [e' [Hloc Hm]]].
      exists parts, e'. split; [|exact Hm].
      now apply (located_below dir entries n children).
Qed.

Lemma located_rglob : forall root dir entries parts e,
    located dir entries parts e ->
    Py.endswith (entry_name e) ".py" = true ->
    In (path_str root parts) (flat_map (rglob_entry root dir) entries).
Proof.
  intros root dir entries parts e H Hm.
  induction H as [dir entries e He | dir entries n children parts e Hd _ IH].
  - apply in_flat_map. exists e. split; [exact He|].
    destruct e as [n | n children]; cbn [rglob_entry entry_name] in *; rewrite Hm.
    + now left.
    + apply in_or_app. left. now left.
  - apply in_flat_map. exists (Dir n children). split; [exact Hd|].
    cbn [rglob_entry]. apply in_or_app. right. now apply IH.
Qed.

Lemma rglob_py_iff : forall directory_path entries p,
    In p (rglob_py directory_path entries)
    <-> exists parts e,
        located (path_parts directory_path) entries parts e
        /\ p = path_str (path_root directory_path) parts
        /\ Py.endswith (entry_name e) ".py" = true.
Proof.
  intros directory_path entries p. unfold rglob_py. split.
  - intros H. apply in_flat_map in H. destruct H as [e [He Hp]].
    now apply (rglob_entry_located e _ _ entries p).
  - intros [parts [e [Hloc [-> Hm]]]]. now apply (located_rglob _ _ entries parts e).
Qed.

Lemma located_path : forall dir entries parts e,
    located dir entries parts e -> exists d, parts = d ++ [entry_name e].
Proof.
  intros dir entries parts e H. induction H as [dir entries e _ | ? ? ? ? ? ? _ _ IH].
  - now exists dir.
  - exact IH.
Qed.

(** The last part of a path ends the string that prints it. *)
Lemma path_str_last : forall root d n,
    Py.endswith (path_str root (d ++ [n])) n = true.
Proof.
  intros root d n.
  assert (H : Py.endswith (String.concat "/" (d ++ [n])) n = true).
  { induction d as [|x d IH]; [apply endswith_iff; now exists ""%string|].
    cbn [app String.concat]. destruct (d ++ [n]) as [|y l] eqn:E.
    - destruct d; discriminate.
    - apply endswith_iff in IH. destruct IH as [before IH]. rewrite IH.
      apply endswith_iff. exists (x ++ "/" ++ before)%string.
      now rewrite !append_assoc. }
  unfold path_str. destruct (d ++ [n]) as [|y l] eqn:E.
  - destruct d; discriminate.
  - apply endswith_iff in H. destruct H as [before ->].
    apply endswith_iff. exists (root ++ before)%string. now rewrite append_assoc.
Qed.

(** The paths returned are those of [modules], each as often. *)
Lemma find_files_permutation : forall directory_path entries recursive found,
    find_files directory_path entries recursive = Return found ->
    Permutation (modules directory_path entries recursive) found.
Proof.
  intros directory_path entries recursive found. unfold find_files.
  destruct (os_listdir entries); [discriminate|].
  destruct (modules directory_path entries recursive) as [|p ps]; [discriminate|].
  intros H. injection H as <-. apply sorted_permutation.
Qed.

Lemma find_files_in : forall directory_path entries recursive found p,
    find_files directory_path entries recursive = Return found ->
    (In p found <-> In p (modules directory_path entries recursive)).
Proof.
  intros directory_path entries recursive found p H.
  apply find_files_permutation in H. split; apply Permutation_in;
    [now apply Permutation_sym | exact H].
Qed.

Lemma modules_recursive_iff : forall directory_path entries p,
    In p (modules directory_path entries true)
    <-> exists parts e,
        located (path_parts directory_path) entries parts e
        /\ p = path_str (path_root directory_path) parts
        /\ Py.endswith (entry_name e) ".py" = true
        /\ Py.endswith p "__init__.py" = false.
Proof.
  intros directory_path entries p. cbn [modules].
  rewrite filter_In, rglob_py_iff, negb_true_iff. split.
  - intros [[parts [e [H1 [H2 H3]]]] H4]. now exists parts, e.
  - intros [parts [e [H1 [H2 [H3 H4]]]]]. split; [now exists parts, e | exact H4].
Qed.

Lemma modules_flat_iff : forall directory_path entries p,
    In p (modules directory_path entries false)
    <-> exists file, In (File file) entries
                     /\ p = os_path_join directory_path file
                     /\ path_suffix p = ".py"%string
                     /\ Py.endswith file "__init__.py" = false.
Proof.
  intros directory_path entries p. cbn [modules]. rewrite in_flat_map. split.
  - intros [[file | n children] [He Hp]]; [|contradiction].
    destruct (String.eqb (path_suffix (os_path_join directory_path file)) ".py") eqn:E1;
      [|contradiction].
    destruct (Py.endswith file "__init__.py") eqn:E2; [contradiction|].
    destruct Hp as [<- | []]. exists file. apply String.eqb_eq in E1. auto.
  - intros [file [He [-> [H1 H2]]]]. exists (File file). split; [exact He|].
    rewrite H1, H2. now left.
Qed.

(** X1.  The recursive search returns exactly the paths, as [pathlib]
    prints them under the normalised path of the directory, of the
    entries, files or directories, at any depth, whose name ends in
    [.py] and whose path does not end in [__init__.py]. *)
Theorem recursive_search_exact : forall directory_path entries found p,
    find_files directory_path entries true = Return found ->
    (In p found
     <-> exists parts e,
         located (path_parts directory_path) entries parts e
         /\ p = path_str (path_root directory_path) parts
         /\ Py.endswith (entry_name e) ".py" = true
         /\ Py.endswith p "__init__.py" = false).
Proof.
  intros directory_path entries found p H.
  rewrite (find_files_in _ _ _ _ p H). apply modules_recursive_iff.
Qed.

Lemma recursive_search_exact_witness :
  In "pkg/sub/a.py"%string ["pkg/b.py"; "pkg/sub/a.py"; "pkg/sub/plugin.py"]%string.
Proof.
  apply (recursive_search_exact "./pkg/" deep_directory).
  - reflexivity.
  - exists ["pkg"; "sub"; "a.py"]%string, (File "a.py"). split; [|repeat split].
    apply (located_below ["pkg"%string] deep_directory "sub"
             [ File "a.py"; File "__init__.py"; Dir "plugin.py" [ File "notes.txt" ] ]).
    + simpl. auto.
    + apply (located_here ["pkg"; "sub"]%string
               [ File "a.py"; File "__init__.py"; Dir "plugin.py" [ File "notes.txt" ] ]
               (File "a.py")).
      simpl. auto.
Defined.

(** X2.  The flat search returns exactly the joined paths of the regular
    files directly in the directory whose suffix is [.py] and whose
    name does not end in [__init__.py]; no directory and nothing below a
    subdirectory is returned. *)
Theorem flat_search_exact : forall directory_path entries found p,
    find_files directory_path entries false = Return found ->
    (In p found
     <-> exists file, In (File file) entries
                      /\ p = os_path_join directory_path file
                      /\ path_suffix p = ".py"%string
                      /\ Py.endswith file "__init__.py" = false).
Proof.
  intros directory_path entries found p H.
  rewrite (find_files_in _ _ _ _ p H). apply modules_flat_iff.
Qed.

Lemma flat_search_exact_witness :
  In "pkg/b.py"%string ["pkg/b.py"%string].
Proof.
  apply (flat_search_exact "pkg" deep_directory).
  - reflexivity.
  - exists "b.py"%string. repeat split. simpl. auto.
Defined.

Lemma endswith_join : forall directory_path file suf,
    Py.contains "/" suf = false ->
    Py.endswith (os_path_join directory_path file) suf = true ->
    Py.endswith file suf = true.
Proof.
  intros directory_path file suf Hsep. unfold os_path_join.
  destruct (Py.startswith file "/"); [auto|].
  destruct (String.eqb_spec directory_path "") as [-> | _]; [simpl; auto|].
  cbn [orb]. destruct (Py.endswith directory_path "/") eqn:E.
  - apply endswith_iff in E. destruct E as [d ->]. rewrite append_assoc.
    now apply endswith_after_separator.
  - now apply endswith_after_separator.
Qed.

(** X3.  Whatever the mode, no path returned ends in [__init__.py]: the
    package initializer is never returned. *)
Theorem initializer_never_returned : forall directory_path entries recursive found p,
    find_files directory_path entries recursive = Return found ->
    In p found ->
    Py.endswith p "__init__.py" = false.
Proof.
  intros directory_path entries recursive found p H Hp.
  apply (find_files_in _ _ _ _ p H) in Hp. destruct recursive.
  - apply modules_recursive_iff in Hp. now destruct Hp as [parts [e [_ [_ [_ Hp]]]]].
  - apply modules_flat_iff in Hp. destruct Hp as [file [_ [-> [_ Hf]]]].
    destruct (Py.endswith (os_path_join directory_path file) "__init__.py") eqn:E;
      [|reflexivity].
    apply endswith_join in E; [congruence | reflexivity].
Qed.

Lemma initializer_never_returned_witness :
  Py.endswith "pkg/sub/a.py" "__init__.py" = false.
Proof.
  apply (initializer_never_returned "pkg" deep_directory true
           ["pkg/b.py"; "pkg/sub/a.py"; "pkg/sub/plugin.py"]%string).
  - reflexivity.
  - simpl. auto.
Defined.

Lemma substring_all : forall s, String.substring 0 (String.length s) s = s.
Proof. induction s as [|a s IH]; simpl; [reflexivity | now rewrite IH]. Qed.

Lemma endswith_tail : forall a s suf,
    Py.endswith s suf = true -> Py.endswith (String a s) suf = true.
Proof. intros a s suf H. cbn [Py.endswith]. rewrite H. apply orb_true_r. Qed.

Lemma endswith_refl : forall s, Py.endswith s s = true.
Proof. intros s. apply endswith_iff. now exists ""%string. Qed.

(** [s[i:]] is the end of [s]. *)
Lemma slice_from_suffix : forall s i, Py.endswith s (Py.slice_from i s) = true.
Proof.
  unfold Py.slice_from. induction s as [|a s IH]; intros i.
  - now destruct i.
  - destruct i as [|i].
    + rewrite Nat.sub_0_r, substring_all. apply endswith_refl.
    + cbn [String.length String.substring Nat.sub]. apply endswith_tail, IH.
Qed.

Lemma path_name_suffix : forall p, Py.endswith p (path_name p) = true.
Proof.
  intros p. unfold path_name. destruct (Py.rfind "/" p).
  - apply slice_from_suffix.
  - apply endswith_refl.
Qed.

Lemma path_suffix_extension : forall p ext,
    ext <> ""%string -> path_suffix p = ext -> Py.endswith p ext = true.
Proof.
  intros p ext Hext. unfold path_suffix.
  destruct (Py.rfind "." (path_name p)) as [i|]; [|congruence].
  destruct ((0 <? i)%nat && (i <? String.length (path_name p) - 1)%nat)%bool;
    [|congruence].
  intros <-. apply (endswith_trans p (path_name p)).
  - apply path_name_suffix.
  - apply slice_from_suffix.
Qed.

(** X4.  Whatever the mode, every path returned ends in [.py]. *)
Theorem returned_paths_end_in_py : forall directory_path entries recursive found p,
    find_files directory_path entries recursive = Return found ->
    In p found ->
    Py.endswith p ".py" = true.
Proof.
  intros directory_path entries recursive found p H Hp.
  apply (find_files_in _ _ _ _ p H) in Hp. destruct recursive.
  - apply modules_recursive_iff in Hp. destruct Hp as [parts [e [Hloc [-> [Hm _]]]]].
    apply located_path in Hloc. destruct Hloc as [d ->].
    apply (endswith_trans _ (entry_name e)); [apply path_str_last | exact Hm].
  - apply modules_flat_iff in Hp. destruct Hp as [file [_ [_ [Hs _]]]].
    apply path_suffix_extension; [discriminate | exact Hs].
Qed.

Lemma returned_paths_end_in_py_witness :
  Py.endswith "pkg/b.py" ".py" = true.
Proof.
  apply (returned_paths_end_in_py "pkg" deep_directory false ["pkg/b.py"%string]).
  - reflexivity.
  - simpl. auto.
Defined.

(** X5.  The recursive search makes no difference between files and
    directories: a directory, at any depth, whose name ends in [.py]
    and whose path does not end in [__init__.py] is returned as if it
    were a module. *)
Theorem recursive_search_returns_directories :
  forall directory_path entries found parts n children,
    find_files directory_path entries true = Return found ->
    located (path_parts directory_path) entries parts (Dir n children) ->
    Py.endswith n ".py" = true ->
    Py.endswith (path_str (path_root directory_path) parts) "__init__.py" = false ->
    In (path_str (path_root directory_path) parts) found.
Proof.
  intros directory_path entries found parts n children H Hloc Hn Hp.
  apply (find_files_in _ _ _ _ _ H). apply modules_recursive_iff.
  now exists parts, (Dir n children).
Qed.

Lemma recursive_search_returns_directories_witness :
  In "pkg/sub/plugin.py"%string ["pkg/b.py"; "pkg/sub/a.py"; "pkg/sub/plugin.py"]%string.
Proof.
  apply (recursive_search_returns_directories "pkg/" deep_directory
           ["pkg/b.py"; "pkg/sub/a.py"; "pkg/sub/plugin.py"]%string
           ["pkg"; "sub"; "plugin.py"]%string "plugin.py" [ File "notes.txt" ]).
  - reflexivity.
  - apply (located_below ["pkg"%string] deep_directory "sub"
             [ File "a.py"; File "__init__.py"; Dir "plugin.py" [ File "notes.txt" ] ]).
    + simpl. auto.
    + apply (located_here ["pkg"; "sub"]%string
               [ File "a.py"; File "__init__.py"; Dir "plugin.py" [ File "notes.txt" ] ]
               (Dir "plugin.py" [ File "notes.txt" ])).
      simpl. auto.
  - reflexivity.
  - reflexivity.
Defined.

(** ** The order of the directory listing *)

Lemma lex_le_antisym : forall s t, lex_le s t -> lex_le t s -> s = t.
Proof.
  intros s t H1 H2. apply String.leb_antisym; now apply leb_lex_le.
Qed.

(** A list has one ascending arrangement. *)
Lemma ascending_unique : forall l l' : list string,
    StronglySorted lex_le l -> StronglySorted lex_le l' ->
    Permutation l l' -> l = l'.
Proof.
  induction l as [|a l IH]; intros l' Hl Hl' HP.
  - now apply Permutation_nil in HP.
  - destruct l' as [|b l'].
    + apply Permutation_sym, Permutation_nil in HP. discriminate.
    + inversion Hl as [|? ? Hl1 Ha]; subst. inversion Hl' as [|? ? Hl1' Hb]; subst.
      rewrite Forall_forall in Ha, Hb.
      assert (a = b) as <-.
      { assert (Hab : In a (b :: l')) by (apply (Permutation_in _ HP); now left).
        assert (Hba : In b (a :: l))
          by (apply (Permutation_in _ (Permutation_sym HP)); now left).
        destruct Hab as [-> | Hab]; [reflexivity|].
        destruct Hba as [-> | Hba]; [reflexivity|].
        apply lex_le_antisym; auto. }
      f_equal. apply IH; auto. now apply Permutation_cons_inv in HP.
Qed.

Lemma sorted_of_permutation : forall l l',
    Permutation l l' -> sorted l = sorted l'.
Proof.
  intros l l' H. apply ascending_unique; try apply sorted_ascending.
  apply (Permutation_trans (Permutation_sym (sorted_permutation l))).
  apply (Permutation_trans H). apply sorted_permutation.
Qed.

Lemma filter_permutation : forall (A : Type) (test : A -> bool) (l l' : list A),
    Permutation l l' -> Permutation (filter test l) (filter test l').
Proof.
  intros A test l l' H. induction H as [| x l l' _ IH | x y l | l l' l'' _ IH1 _ IH2].
  - constructor.
  - simpl. destruct (test x); [now constructor | exact IH].
  - simpl. destruct (test x), (test y); try apply Permutation_refl. constructor.
  - now apply (Permutation_trans IH1).
Qed.

Lemma modules_permutation : forall directory_path entries entries' recursive,
    Permutation entries entries' ->
    Permutation (modules directory_path entries recursive)
      (modules directory_path entries' recursive).
Proof.
  intros directory_path entries entries' recursive H. unfold modules, rglob_py.
  destruct recursive.
  - apply filter_permutation. now apply Permutation_flat_map.
  - now apply Permutation_flat_map.
Qed.

(** X6.  The result does not depend on the order in which the entries of
    the directory are listed: listed in another order, the same
    directory gives the same list of paths, or the same exception. *)
Theorem listing_order_irrelevant : forall directory_path entries entries' recursive,
    Permutation entries entries' ->
    find_files directory_path entries recursive
    = find_files directory_path entries' recursive.
Proof.
  intros directory_path entries entries' recursive H. unfold find_files.
  pose proof (modules_permutation directory_path entries entries' recursive H) as HM.
  assert (HL : os_listdir entries = [] <-> os_listdir entries' = []).
  { unfold os_listdir. destruct entries, entries'; simpl; try tauto;
      split; try discriminate.
    - apply Permutation_nil in H. discriminate.
    - apply Permutation_sym, Permutation_nil in H. discriminate. }
  destruct (os_listdir entries) as [|n ns], (os_listdir entries') as [|n' ns'];
    try reflexivity.
  - destruct HL as [HL _]. specialize (HL eq_refl). discriminate.
  - destruct HL as [_ HL]. specialize (HL eq_refl). discriminate.
  - destruct (modules directory_path entries recursive) as [|p ps],
             (modules directory_path entries' recursive) as [|p' ps'].
    + reflexivity.
    + apply Permutation_nil in HM. discriminate.
    + apply Permutation_sym, Permutation_nil in HM. discriminate.
    + f_equal. now apply sorted_of_permutation.
Qed.

Lemma listing_order_irrelevant_witness :
  find_files "pkg" [ File "b.py"; File "a.py" ] false
  = find_files "pkg" [ File "a.py"; File "b.py" ] false.
Proof.
  apply (listing_order_irrelevant "pkg" [ File "b.py"; File "a.py" ]
           [ File "a.py"; File "b.py" ] false).
  apply perm_swap.
Defined.

(** * Further properties of the report *)

(** ** Failure *)

Lemma module_loop_raises : forall parse directory_path files st e,
    module_loop parse directory_path st files = Raise e
    <-> exists before file_name after,
        files = before ++ file_name :: after
        /\ Forall (fun f => (exists tree, parse f = Return tree)
                            /\ (exists shown, module_name directory_path f = inr shown))
             before
        /\ (parse file_name = Raise e
            \/ ((exists tree, parse file_name = Return tree)
                /\ exists se, module_name directory_path file_name = inl se
                              /\ e = StrError se)).
Proof.
  intros parse directory_path files. induction files as [|f files IH]; intros st e.
  - split; [discriminate|]. intros [before [file_name [after [H _]]]].
    destruct before; discriminate.
  - cbn [module_loop]. destruct (parse f) as [tree | e'] eqn:Hf; cbn [bind].
    + rewrite module_step_eq.
      destruct (module_name directory_path f) as [se | shown] eqn:Hn; cbn [bind].
      * split.
        -- intros H. injection H as <-. exists [], f, files.
           split; [reflexivity | split; [constructor|]].
           right. split; [now exists tree | now exists se].
        -- intros [before [file_name [after [Heq [Hb Hp]]]]].
           destruct before as [|b before].
           ++ simpl in Heq. injection Heq as <- _.
              destruct Hp as [Hp | [_ [se' [Hse ->]]]]; congruence.
           ++ simpl in Heq. injection Heq as <- _.
              inversion Hb as [|? ? [_ [shown Hs]] _]; subst. congruence.
      * rewrite IH. split.
        -- intros [before [file_name [after [-> [Hb Hp]]]]].
           exists (f :: before), file_name, after. split; [reflexivity | split; [|exact Hp]].
           constructor; [|exact Hb]. split; [now exists tree | now exists shown].
        -- intros [before [file_name [after [Heq [Hb Hp]]]]].
           destruct before as [|b before].
           ++ simpl in Heq. injection Heq as <- _.
              destruct Hp as [Hp | [_ [se' [Hse _]]]]; congruence.
           ++ simpl in Heq. injection Heq as <- ->. inversion Hb; subst.
              now exists before, file_name, after.
    + split.
      * intros H. injection H as <-. exists [], f, files.
        split; [reflexivity | split; [constructor | now left]].
      * intros [before [file_name [after [Heq [Hb Hp]]]]].
        destruct before as [|b before].
        -- simpl in Heq. injection Heq as <- _.
           destruct Hp as [Hp | [[tree Ht] _]]; congruence.
        -- simpl in Heq. injection Heq as <- _.
           inversion Hb as [|? ? [[tree Ht] _] _]; subst. congruence.
Qed.

(** X7.  [create_report] raises exactly when [find_files] raises, or one
    of the files found does not parse, or the name of one of them cannot
    be computed; the exception is that of [find_files], or that of the
    first file, in the order of [find_files], at which one of the two
    steps fails, parsing coming first. *)
Theorem create_report_raises : forall parse directory_path entries recursive e,
    create_report parse directory_path entries recursive = Raise e
    <-> find_files directory_path entries recursive = Raise e
        \/ exists before file_name after,
            find_files directory_path entries recursive
            = Return (before ++ file_name :: after)
            /\ Forall (fun f => (exists tree, parse f = Return tree)
                                /\ (exists shown, module_name directory_path f = inr shown))
                 before
            /\ (parse file_name = Raise e
                \/ ((exists tree, parse file_name = Return tree)
                    /\ exists se, module_name directory_path file_name = inl se
                                  /\ e = StrError se)).
Proof.
  intros parse directory_path entries recursive e. unfold create_report.
  destruct (find_files directory_path entries recursive) as [files | e'] eqn:Hfind;
    cbn [bind].
  - destruct (module_loop parse directory_path (mk_state [] [] []) files)
      as [st | e''] eqn:Hloop; cbn [bind].
    + split; [discriminate|]. intros [H | [before [file_name [after [Heq H]]]]];
        [discriminate|].
      injection Heq as ->.
      assert (Hr : module_loop parse directory_path (mk_state [] [] [])
                     (before ++ file_name :: after) = Raise e)
        by (apply module_loop_raises; now exists before, file_name, after).
      congruence.
    + split.
      * intros H. injection H as ->. right.
        apply module_loop_raises in Hloop.
        destruct Hloop as [before [file_name [after [-> H]]]].
        now exists before, file_name, after.
      * intros [H | [before [file_name [after [Heq H]]]]]; [discriminate|].
        injection Heq as ->.
        assert (Hr : module_loop parse directory_path (mk_state [] [] [])
                       (before ++ file_name :: after) = Raise e)
          by (apply module_loop_raises; now exists before, file_name, after).
        congruence.
  - split.
    + intros H. left. now injection H as ->.
    + intros [H | [before [file_name [after [H _]]]]]; [|discriminate].
      now injection H as ->.
Qed.

Lemma create_report_raises_witness :
  create_report example_parse "pkg" [ File "b.py"; File "broken.py" ] true
  = Raise (SyntaxError "invalid syntax")
  /\ create_report example_parse "./pkg" [ File "b.py" ] true
     = Raise (StrError IndexError).
Proof.
  split.
  - apply (create_report_raises example_parse "pkg" [ File "b.py"; File "broken.py" ] true).
    right. exists ["pkg/b.py"%string], "pkg/broken.py"%string, [].
    split; [reflexivity | split; [|now left]].
    constructor; [|constructor].
    split; [now exists foo_bar_module | now exists "pkg.b"%string].
  - apply (create_report_raises example_parse "./pkg" [ File "b.py" ] true).
    right. exists [], "pkg/b.py"%string, [].
    split; [reflexivity | split; [constructor|]].
    right. split; [now exists foo_bar_module | now exists IndexError].
Defined.

(** ** Bounds *)

Lemma row_bounded : forall shown (missing covered : list string),
    bounded_row
      (mk_row shown (len missing + len covered)%Z (len missing)
         (percentage_covered ((len missing + len covered) - len missing)%Z
            (len missing + len covered)%Z)).
Proof.
  intros shown missing covered. unfold bounded_row.
  cbn [row_total row_missing row_percentage].
  pose proof (len_nonneg _ missing). pose proof (len_nonneg _ covered).
  split; [lia|]. intros E. unfold percentage_covered. now rewrite E.
Qed.

Lemma module_loop_bounded : forall parse directory_path files st st',
    module_loop parse directory_path st files = Return st' ->
    Forall bounded_row (printed st) ->
    Forall bounded_row (printed st').
Proof.
  intros parse directory_path files. induction files as [|f files IH]; intros st st' H Hst.
  - injection H as <-. exact Hst.
  - cbn [module_loop] in H. destruct (parse f) as [tree | e]; [|discriminate].
    cbn [bind] in H. rewrite module_step_eq in H.
    destruct (module_name directory_path f) as [se | shown]; [discriminate|].
    cbn [bind] in H.
    apply (IH _ _ H). cbn [printed]. apply Forall_app. split; [exact Hst|].
    constructor; [apply row_bounded | constructor].
Qed.

Lemma package_row_bounded : forall st, bounded_row (package_row st).
Proof.
  intros st. unfold package_row.
  set (w := List.concat (dict_values (all_methods_with_example st))).
  set (wo := List.concat (dict_values (all_methods_without_example st))).
  replace (len w + len wo)%Z with (len wo + len w)%Z by lia.
  apply row_bounded.
Qed.

(** X8.  In every report, each row and the row of the package have a
    missing count between zero and the total, and a percentage of
    exactly 100 when the total is zero. *)
Theorem rows_within_bounds : forall parse directory_path entries recursive rows package,
    create_report parse directory_path entries recursive = Return (rows, package) ->
    Forall bounded_row (package :: rows).
Proof.
  intros parse directory_path entries recursive rows package. unfold create_report.
  destruct (find_files directory_path entries recursive) as [files | e]; [|discriminate].
  cbn [bind].
  destruct (module_loop parse directory_path (mk_state [] [] []) files)
    as [st | e] eqn:Hloop; [|discriminate].
  cbn [bind]. intros H. injection H as <- <-. constructor.
  - apply package_row_bounded.
  - apply (module_loop_bounded parse directory_path files _ st Hloop). constructor.
Qed.

Lemma rows_within_bounds_witness :
  Forall bounded_row
    [ mk_row "Total" 4 2 50; mk_row "pkg.b" 4 2 50; mk_row "pkg.sub.a" 0 0 100 ].
Proof.
  apply (rows_within_bounds example_parse "pkg" example_directory true).
  reflexivity.
Defined.

(** ** The row of the package *)

Lemma module_loop_parsed : forall parse directory_path files st st',
    module_loop parse directory_path st files = Return st' ->
    exists trees names,
      Forall2 (fun file_name tree => parse file_name = Return tree) files trees
      /\ Forall2 (fun file_name shown => module_name directory_path file_name = inr shown)
           files names.
Proof.
  intros parse directory_path files. induction files as [|f files IH]; intros st st' H.
  - exists [], []. split; constructor.
  - cbn [module_loop] in H. destruct (parse f) as [tree | e] eqn:Hf; [|discriminate].
    cbn [bind] in H. rewrite module_step_eq in H.
    destruct (module_name directory_path f) as [se | shown] eqn:Hn; [discriminate|].
    cbn [bind] in H.
    destruct (IH _ _ H) as [trees [names [Ht Hs]]].
    exists (tree :: trees), (shown :: names). split; now constructor.
Qed.

Lemma create_report_returns :
  forall parse directory_path entries recursive files rows package,
    find_files directory_path entries recursive = Return files ->
    NoDup files ->
    create_report parse directory_path entries recursive = Return (rows, package) ->
    exists trees,
      Forall2 (fun file_name tree => parse file_name = Return tree) files trees
      /\ Forall2 (fun tree r => stats_of (with_example tree) (without_example tree) r)
           trees rows
      /\ stats_of (flat_map with_example trees) (flat_map without_example trees) package.
Proof.
  intros parse directory_path entries recursive files rows package Hfind Hnodup.
  unfold create_report. rewrite Hfind. cbn [bind].
  destruct (module_loop parse directory_path (mk_state [] [] []) files)
    as [st | e] eqn:Hloop; [|discriminate].
  cbn [bind]. intros H. injection H as <- <-.
  destruct (module_loop_parsed _ _ _ _ _ Hloop) as [trees [names [Hparse Hnames]]].
  exists trees. split; [exact Hparse|].
  destruct (module_loop_eq parse directory_path files trees names Hparse Hnames
              (mk_state [] [] []))
    as [rows [Hloop' [_ Hrows]]].
  rewrite Hloop in Hloop'. injection Hloop' as ->.
  cbn [printed app all_methods_with_example all_methods_without_example].
  split; [exact Hrows|].
  destruct (map_fst_combine _ _ _ _ _ Hparse) as [Hfst Hsnd].
  rewrite !store_fresh by (cbn [map app]; now rewrite Hfst). cbn [app].
  match goal with |- stats_of _ _ (package_row ?st) =>
    pose proof (package_row_stats st) as H end.
  cbn [all_methods_with_example all_methods_without_example] in H.
  unfold dict_values in H. rewrite !map_map in H. cbn [snd] in H.
  rewrite !flat_map_concat_map.
  rewrite <- Hsnd at 1 2. now rewrite !map_map.
Qed.

Lemma len_app : forall (A : Type) (l l' : list A), len (l ++ l') = (len l + len l')%Z.
Proof. intros A l l'. unfold len. rewrite length_app. lia. Qed.

Lemma column_sums : forall trees rows,
    Forall2 (fun tree r => stats_of (with_example tree) (without_example tree) r)
      trees rows ->
    column_sum row_total rows
    = (len (flat_map with_example trees) + len (flat_map without_example trees))%Z
    /\ column_sum row_missing rows = len (flat_map without_example trees).
Proof.
  intros trees rows H. induction H as [|tree r trees rows [Ht [Hm _]] _ [IH1 IH2]].
  - split; reflexivity.
  - cbn [column_sum fold_right flat_map]. fold (column_sum row_total rows).
    fold (column_sum row_missing rows). rewrite !len_app, IH1, IH2, Ht, Hm. lia.
Qed.

(** X9.  When the files found have distinct paths, the row of the
    package adds up the rows of the modules: its total is the sum of
    their totals and its missing count the sum of their missing
    counts. *)
Theorem package_row_adds_up :
  forall parse directory_path entries recursive files rows package,
    find_files directory_path entries recursive = Return files ->
    NoDup files ->
    create_report parse directory_path entries recursive = Return (rows, package) ->
    row_total package = column_sum row_total rows
    /\ row_missing package = column_sum row_missing rows.
Proof.
  intros parse directory_path entries recursive files rows package Hfind Hnodup Hreport.
  destruct (create_report_returns _ _ _ _ _ _ _ Hfind Hnodup Hreport)
    as [trees [_ [Hrows [Ht [Hm _]]]]].
  destruct (column_sums trees rows Hrows) as [H1 H2].
  rewrite Ht, Hm, H1, H2. now split.
Qed.

Lemma package_row_adds_up_witness :
  row_total (mk_row "Total" 4 2 50)
  = column_sum row_total [ mk_row "pkg.b" 4 2 50; mk_row "pkg.sub.a" 0 0 100 ]
  /\ row_missing (mk_row "Total" 4 2 50)
     = column_sum row_missing [ mk_row "pkg.b" 4 2 50; mk_row "pkg.sub.a" 0 0 100 ].
Proof.
  apply (package_row_adds_up example_parse "pkg" example_directory true
           ["pkg/b.py"; "pkg/sub/a.py"]%string).
  - reflexivity.
  - repeat constructor; simpl; intuition discriminate.
  - reflexivity.
Defined.

(** * Further properties of the classifier *)

Lemma flat_map_flat_map : forall (A B C : Type) (f : A -> list B) (g : B -> list C) l,
    flat_map g (flat_map f l) = flat_map (fun a => flat_map g (f a)) l.
Proof.
  intros A B C f g l. induction l as [|a l IH]; [reflexivity|].
  simpl. now rewrite flat_map_app, IH.
Qed.

(** X10.  Each of the two lists of a module holds first what the
    top-level functions add, in the order of the source, then what the
    classes add, then what the methods add, class after class, however
    functions and classes alternate in the file. *)
Theorem lists_in_source_order : forall tree,
    without_example tree
    = (flat_map (fun f => fst (function_entries f)) (function_nodes tree)
       ++ flat_map (fun c => fst (class_entries c)) (class_nodes tree))
      ++ flat_map (fun c => flat_map (fun m => fst (method_entries m))
                              (function_nodes (cbody c)))
           (class_nodes tree)
    /\ with_example tree
       = (flat_map (fun f => snd (function_entries f)) (function_nodes tree)
          ++ flat_map (fun c => snd (class_entries c)) (class_nodes tree))
         ++ flat_map (fun c => flat_map (fun m => snd (method_entries m))
                                 (function_nodes (cbody c)))
              (class_nodes tree).
Proof.
  intros tree.
  rewrite without_example_entries, with_example_entries, method_definitions_eq.
  now rewrite !flat_map_flat_map.
Qed.

(** X11.  Decorators other than [property] and [<value>.setter] do not
    count: a method that carries none of these two is classified as a
    top-level function of the same name and documentation string is. *)
Theorem other_decorators_ignored : forall m,
    existsb is_marker (decorator_list m) = false ->
    method_entries m = function_entries m.
Proof.
  intros m H. now rewrite method_entries_eq, function_entries_eq, H.
Qed.

Lemma other_decorators_ignored_witness :
  method_entries (mk_function_def "build" [Name "staticmethod"; Attribute (Name "x") "deleter"]
                    (Some "Example: build()"))
  = ([], ["build"%string]).
Proof.
  rewrite (other_decorators_ignored
             (mk_function_def "build" [Name "staticmethod"; Attribute (Name "x") "deleter"]
                (Some "Example: build()"))).
  - reflexivity.
  - reflexivity.
Defined.

Lemma existsb_permutation : forall (A : Type) (test : A -> bool) (l l' : list A),
    Permutation l l' -> existsb test l = existsb test l'.
Proof.
  intros A test l l' H. induction H as [| x l l' _ IH | x y l | l l' l'' _ IH1 _ IH2].
  - reflexivity.
  - simpl. now rewrite IH.
  - simpl. now destruct (test x), (test y).
  - now rewrite IH1.
Qed.

Lemma count_permutation : forall test m m',
    Permutation (decorator_list m) (decorator_list m') ->
    count test m = count test m'.
Proof.
  intros test m m' H. unfold count.
  apply Permutation_length. now apply filter_permutation.
Qed.

(** X12.  The order of the decorators of a method does not matter: two
    methods with the same name, the same documentation string and the
    same decorators in another order add the same names. *)
Theorem decorator_order_irrelevant : forall m m',
    name m = name m' ->
    get_docstring m = get_docstring m' ->
    Permutation (decorator_list m) (decorator_list m') ->
    method_entries m = method_entries m'.
Proof.
  intros m m' Hn Hd Hp.
  rewrite !method_entries_eq, !decorator_loop_eq.
  rewrite (existsb_permutation _ is_marker _ _ Hp).
  rewrite (count_permutation is_property m m' Hp),
    (count_permutation is_setter m m' Hp), (count_permutation is_marker m m' Hp).
  now rewrite Hn, Hd.
Qed.

Lemma decorator_order_irrelevant_witness :
  method_entries (mk_function_def "x" [Name "cached"; Name "property"] None)
  = method_entries (mk_function_def "x" [Name "property"; Name "cached"] None).
Proof.
  apply (decorator_order_irrelevant
           (mk_function_def "x" [Name "cached"; Name "property"] None)
           (mk_function_def "x" [Name "property"; Name "cached"] None)).
  - reflexivity.
  - reflexivity.
  - apply perm_swap.
Defined.

(** X13.  A method with [property] or [<value>.setter] decorators is
    counted once for each of them: the names it adds to the two lists
    are as many as it carries such decorators, and all are its own. *)
Theorem counted_once_per_marker : forall m,
    existsb is_marker (decorator_list m) = true ->
    List.length (fst (method_entries m)) + List.length (snd (method_entries m))
    = count is_marker m
    /\ Forall (eq (name m)) (fst (method_entries m) ++ snd (method_entries m)).
Proof.
  intros m H. rewrite method_entries_eq, H, decorator_loop_eq. cbn [fst].
  pose proof (count_marker m) as Hc.
  destruct (lacks_example (get_docstring m)); cbn [fst snd List.length app].
  - rewrite !repeat_length. split; [lia|].
    apply Forall_app. split; apply Forall_forall; intros x Hx;
      apply repeat_spec in Hx; now subst.
  - rewrite repeat_length. split; [reflexivity|].
    apply Forall_forall. intros x Hx. apply repeat_spec in Hx. now subst.
Qed.

Lemma counted_once_per_marker_witness :
  List.length (fst (method_entries doubly_decorated))
  + List.length (snd (method_entries doubly_decorated)) = 2.
Proof.
  destruct (counted_once_per_marker doubly_decorated) as [H _].
  - reflexivity.
  - exact H.
Defined.

(** X14.  Classes are never exempt: every top-level class is listed,
    covered or missing, whatever its name, a name that starts with an
    underscore included. *)
Theorem every_class_listed : forall tree n d body,
    In (ClassDef n d body) tree ->
    In n (with_example tree) \/ In n (without_example tree).
Proof.
  intros tree n d body H.
  assert (Hc : In (mk_class_def n d body) (class_nodes tree))
    by now apply in_class_nodes.
  pose proof (class_entries_eq (mk_class_def n d body)) as He. cbn [cname cdocstring] in He.
  destruct (lacks_example d).
  - right. apply in_without_example. right. left. exists (mk_class_def n d body).
    rewrite He. simpl. auto.
  - left. apply in_with_example. right. left. exists (mk_class_def n d body).
    rewrite He. simpl. auto.
Qed.

Lemma every_class_listed_witness :
  In "_f"%string (with_example private_class_and_function)
  \/ In "_f"%string (without_example private_class_and_function).
Proof.
  apply (every_class_listed private_class_and_function "_f" None []).
  simpl. auto.
Defined.

Lemma function_nodes_only_methods : forall body,
    function_nodes (only_methods body) = function_nodes body.
Proof.
  induction body as [|node body IH]; [reflexivity|].
  unfold function_nodes, only_methods in *. cbn [map flat_map]. rewrite IH.
  now destruct node.
Qed.

Lemma function_nodes_flatten_classes : forall tree,
    function_nodes (flatten_classes tree) = function_nodes tree.
Proof.
  induction tree as [|node tree IH]; [reflexivity|].
  unfold function_nodes, flatten_classes in *. cbn [map flat_map]. rewrite IH.
  now destruct node.
Qed.

Lemma class_nodes_flatten_classes : forall tree,
    class_nodes (flatten_classes tree)
    = map (fun c => mk_class_def (cname c) (cdocstring c) (only_methods (cbody c)))
        (class_nodes tree).
Proof.
  induction tree as [|node tree IH]; [reflexivity|].
  unfold class_nodes, flatten_classes in *. cbn [map flat_map]. rewrite IH.
  destruct node; cbn [app map]; reflexivity.
Qed.

(** X15.  Only the function definitions written directly in a class body
    are methods: a class nested in a class, its methods, and any other
    statement of the body add nothing, and the two lists are those of
    the module with these statements replaced. *)
Theorem nested_classes_ignored : forall tree,
    without_example (flatten_classes tree) = without_example tree
    /\ with_example (flatten_classes tree) = with_example tree.
Proof.
  intros tree.
  rewrite !without_example_entries, !with_example_entries, !method_definitions_eq.
  rewrite function_nodes_flatten_classes, class_nodes_flatten_classes,
    !flat_map_concat_map, !map_map.
  cbn [cbody].
  assert (Hm : map (fun c => function_nodes (only_methods (cbody c))) (class_nodes tree)
               = map (fun c => function_nodes (cbody c)) (class_nodes tree))
    by (apply map_ext; intros c; apply function_nodes_only_methods).
  rewrite Hm.
  assert (Hc : forall c,
             class_entries (mk_class_def (cname c) (cdocstring c) (only_methods (cbody c)))
             = class_entries c) by (intros c; now rewrite !class_entries_eq).
  assert (Hc1 : map (fun c => fst (class_entries
                       (mk_class_def (cname c) (cdocstring c) (only_methods (cbody c)))))
                  (class_nodes tree)
                = map (fun c => fst (class_entries c)) (class_nodes tree))
    by (apply map_ext; intros c; now rewrite Hc).
  assert (Hc2 : map (fun c => snd (class_entries
                       (mk_class_def (cname c) (cdocstring c) (only_methods (cbody c)))))
                  (class_nodes tree)
                = map (fun c => snd (class_entries c)) (class_nodes tree))
    by (apply map_ext; intros c; now rewrite Hc).
  now rewrite Hc1, Hc2.
Qed.

(** X16.  Text added before or after a documentation string that
    passes the test leaves it passing: a declaration that is covered
    stays covered when its documentation grows. *)
Theorem example_survives_additions : forall d before after,
    lacks_example (Some d) = false ->
    lacks_example (Some (before ++ d ++ after)%string) = false.
Proof.
  intros d before after H. cbn [lacks_example] in *.
  apply negb_false_iff in H. apply negb_false_iff.
  apply contains_iff in H. destruct H as [b [a ->]].
  apply contains_iff. exists (before ++ b)%string, (a ++ after)%string.
  now rewrite !append_assoc.
Qed.

Lemma example_survives_additions_witness :
  lacks_example (Some ("Summary.  " ++ "Example: f()" ++ "  See also g.")%string) = false.
Proof.
  apply (example_survives_additions "Example: f()" "Summary.  " "  See also g.").
  reflexivity.
Defined.

(** * The name of a module in the table *)

Lemma prefix_append : forall s t, String.prefix s (s ++ t) = true.
Proof. intros s t. apply prefix_iff. now exists t. Qed.

Lemma drop_append : forall s t, drop (String.length s) (s ++ t) = t.
Proof. induction s as [|a s IH]; intros t; simpl; [reflexivity | apply IH]. Qed.

Lemma partition_eq : forall sep s,
    partition sep s
    = if String.prefix sep s then Some (EmptyString, drop (String.length sep) s)
      else match s with
           | EmptyString => None
           | String c s' =>
               match partition sep s' with
               | Some (before, after) => Some (String c before, after)
               | None => None
               end
           end.
Proof. intros sep s. now destruct s. Qed.

Lemma partition_none : forall sep s,
    partition sep s = None <-> Py.contains sep s = false.
Proof.
  intros sep s. induction s as [|c s IH].
  - rewrite partition_eq, contains_empty. now destruct (String.prefix sep "").
  - rewrite partition_eq, contains_String.
    destruct (String.prefix sep (String c s)); cbn [orb].
    + split; discriminate.
    + rewrite <- IH. destruct (partition sep s) as [[before after]|];
        split; congruence.
Qed.

Lemma split_second_prefixed : forall sep rest,
    sep <> ""%string ->
    split_second (sep ++ rest) sep
    = inr (match partition sep rest with
           | None => rest
           | Some (second, _) => second
           end).
Proof.
  intros sep rest Hsep. unfold split_second.
  destruct (String.eqb_spec sep "") as [E | _]; [contradiction|].
  rewrite partition_eq, prefix_append, drop_append.
  now destruct (partition sep rest) as [[second after]|].
Qed.








(** X18.  For a directory path that is not empty, the computation of the
    displayed name fails, with [IndexError], exactly when the path of
    the directory does not occur in the path of the file; it succeeds
    for every path that starts with the path of the directory. *)
Theorem module_name_defined : forall directory_path,
    directory_path <> ""%string ->
    (forall file_name,
        module_name directory_path file_name = inl IndexError
        <-> Py.contains directory_path file_name = false)
    /\ (forall file_name e,
           module_name directory_path file_name = inl e -> e = IndexError)
    /\ (forall rest, exists shown,
           module_name directory_path (directory_path ++ rest) = inr shown).
Proof.
  intros directory_path Hdir.
  assert (Hsplit : forall file_name,
             split_second file_name directory_path
             = match partition directory_path file_name with
               | None => inl IndexError
               | Some (_, rest) =>
                   match partition directory_path rest with
                   | None => inr rest
                   | Some (second, _) => inr second
                   end
               end).
  { intros file_name. unfold split_second.
    destruct (String.eqb_spec directory_path "") as [E | _]; [contradiction | reflexivity]. }
  split; [|split].
  - intros file_name. unfold module_name. rewrite Hsplit, <- partition_none.
    destruct (partition directory_path file_name) as [[before rest]|].
    + destruct (partition directory_path rest) as [[second after]|]; split; discriminate.
    + split; reflexivity.
  - intros file_name e. unfold module_name. rewrite Hsplit.
    destruct (partition directory_path file_name) as [[before rest]|].
    + destruct (partition directory_path rest) as [[second after]|]; discriminate.
    + intros H. now injection H as <-.
  - intros rest. unfold module_name.
    rewrite (split_second_prefixed directory_path rest Hdir). eexists. reflexivity.
Qed.

Lemma module_name_defined_witness :
  module_name "./pkg" "pkg/a.py" = inl IndexError.
Proof.
  destruct (module_name_defined "./pkg") as [H _]; [discriminate|].
  apply H. reflexivity.
Defined.

Lemma char_length_append : forall s t,
    char_length (s ++ t) = char_length s + char_length t.
Proof.
  induction s as [|b s IH]; intros t; [reflexivity|].
  cbn [append char_length]. rewrite IH. now destruct (is_continuation b).
Qed.

Lemma char_length_spaces : forall n, char_length (spaces n) = n.
Proof. induction n as [|n IH]; [reflexivity|]. cbn. cbn in IH. now rewrite IH. Qed.

Lemma char_length_take_chars : forall s n,
    char_length (take_chars n s) = Nat.min n (char_length s).
Proof.
  induction s as [|b s IH]; intros n.
  - now destruct n.
  - cbn [take_chars char_length]. destruct (is_continuation b) eqn:E.
    + cbn [char_length]. rewrite E. apply IH.
    + destruct n as [|n]; [reflexivity|].
      cbn [char_length]. rewrite E, IH. reflexivity.
Qed.

Lemma take_chars_short : forall s n,
    char_length s <= n -> take_chars n s = s.
Proof.
  induction s as [|b s IH]; intros n H; [reflexivity|].
  cbn [take_chars char_length] in *. destruct (is_continuation b).
  - now rewrite IH.
  - destruct n as [|n]; [lia|]. rewrite IH; [reflexivity | lia].
Qed.

(** X19.  The name column is always 43 characters wide, counted as
    Python counts them, in characters and not in bytes: a name of at
    most 42 characters is shown whole and padded with spaces, a longer
    one is cut after 42 characters and followed by one space. *)
Theorem name_column_width : forall shown,
    char_length (name_column shown) = 43
    /\ (char_length shown <= 42 ->
        name_column shown = (shown ++ spaces (43 - char_length shown))%string)
    /\ (42 < char_length shown ->
        name_column shown = (take_chars 42 shown ++ " ")%string).
Proof.
  intros shown. unfold name_column. split; [|split].
  - rewrite char_length_append, char_length_spaces, char_length_take_chars. lia.
  - intros H. now rewrite take_chars_short.
  - intros H. rewrite char_length_take_chars.
    replace (43 - Nat.min 42 (char_length shown)) with 1 by lia. reflexivity.
Qed.

Lemma name_column_width_witness :
  name_column accented_name = (accented_name ++ spaces 38)%string
  /\ String.length (name_column accented_name) = 44.
Proof.
  destruct (name_column_width accented_name) as [_ [H _]].
  split; [|reflexivity]. apply H. simpl. lia.
Defined.

(** * Scenarios *)

Example scenario_foo_bar :
  let tree := [ FunctionDef (mk_function_def "foo" [] (Some "Example: foo()"));
                FunctionDef (mk_function_def "bar" [] None) ] in
  with_example tree = ["foo"] /\ without_example tree = ["bar"].
Proof. split; reflexivity. Qed.

Example scenario_getter_setter :
  with_example getter_setter_pair = ["C"; "x"; "x"]
  /\ without_example getter_setter_pair = [].
Proof. split; reflexivity. Qed.

Example scenario_report :
  create_report example_parse "pkg" example_directory true
  = Return ([ mk_row "pkg.b" 4 2 50; mk_row "pkg.sub.a" 0 0 100 ],
            mk_row "Total" 4 2 50).
Proof. reflexivity. Qed.

Example scenario_rounding :
  percentage_covered 1999 2000 = 0x1.8fccccccccccdp+6%float
  /\ percentage_covered 5 6 = 0x1.4d55555555556p+6%float.
Proof. split; reflexivity. Qed.

Example scenario_normalised_paths :
  find_files "./pkg/" example_directory true = Return ["pkg/b.py"; "pkg/sub/a.py"]%string
  /\ find_files "." [ File "a.py" ] true = Return ["a.py"%string]
  /\ find_files "/" [ File "a.py" ] true = Return ["/a.py"%string]
  /\ find_files "pkg//sub" [ File "a.py" ] true = Return ["pkg/sub/a.py"%string]
  /\ find_files "./pkg/" example_directory false = Return ["./pkg/b.py"%string].
Proof. repeat split; reflexivity. Qed.

Example scenario_unparsed :
  create_report example_parse "pkg" [ File "broken.py" ] true
  = Raise (SyntaxError "invalid syntax").
Proof. reflexivity. Qed.

Example scenario_empty_directory :
  find_files "pkg" [] true
  = Raise (FileNotFoundError "There are no python source files in pkg.").
Proof. reflexivity. Qed.

Example scenario_only_initializer :
  find_files "pkg" [ File "__init__.py" ] false
  = Raise (FileNotFoundError "No python modules found in: pkg.").
Proof. reflexivity. Qed.

Example scenario_flat_search :
  find_files "pkg" example_directory false = Return ["pkg/b.py"].
Proof. reflexivity. Qed.

Example scenario_module_names :
  module_name "pkg" "pkg/a.py" = inr "pkg.a"%string
  /\ module_name "/home/user/pkg" "/home/user/pkg/sub/a.py" = inr "pkg.sub.a"%string
  /\ module_name "pkg" "pkg/pkg/a.py" = inr "pkg"%string.
Proof. repeat split; reflexivity. Qed.
